(** * Testing Library detection helpers: a shallow embedding

    The development follows the two source files of the plugin:
    - [node-utils]: the duck-typed node-shape predicates and the
      parent-chain ascents;
    - [detect-testing-library-utils]: the per-file detection state, the
      detection listeners, the reporting gate, the specifier lookup and
      the merge of the detection listeners with a rule's listeners.

    The source is JavaScript working on ESTree nodes by probing fields,
    so nodes are modelled as untyped JavaScript values and every field
    access that JavaScript can refuse (a property read on [undefined] or
    [null], a method call on a non-array) is a [Throw] in a small error
    monad. *)

From Stdlib Require Import String Ascii List ZArith Bool Lia.
From stdpp Require Import base option gmap strings list pretty.
From Equations Require Import Equations.
From Equations.Prop Require Import Logic.

Local Open Scope string_scope.
Local Open Scope list_scope.

(** ** JavaScript values *)

(** The fragment of JavaScript values the helpers can meet.  An object is
    the list of its own fields; a syntax-tree node is an object with a
    ["type"] field, and its parent link is the field ["parent"]. *)
#[warnings="-register-all"]
Inductive value : Type :=
| VUndefined
| VNull
| VBool (b : bool)
| VNum (n : Z)
| VStr (s : string)
| VArr (elems : list value)
| VObj (fields : list (string * value)).

(** The only exception the helpers can raise is a [TypeError]. *)
Inductive fault : Type := TypeError.

Inductive result (A : Type) : Type :=
| Ok (a : A)
| Throw (e : fault).
Arguments Ok {A} a.
Arguments Throw {A} e.

Definition bind {A B} (m : result A) (f : A -> result B) : result B :=
  match m with
  | Ok a => f a
  | Throw e => Throw e
  end.

Notation "'let*' x ':=' m 'in' k" := (bind m (fun x => k))
  (at level 10, x pattern, m at level 100, k at level 200).

(** [ToBoolean]: [undefined], [null], [false], [0] and the empty string
    are falsy, everything else (every object and array) is truthy. *)
Definition truthy (v : value) : bool :=
  match v with
  | VUndefined | VNull => false
  | VBool b => b
  | VNum n => negb (n =? 0)%Z
  | VStr s => negb (s =? "")
  | VArr _ | VObj _ => true
  end.

Definition nullish (v : value) : bool :=
  match v with
  | VUndefined | VNull => true
  | _ => false
  end.

Fixpoint lookup_field (k : string) (fs : list (string * value)) : value :=
  match fs with
  | [] => VUndefined
  | (k', v) :: fs' => if k' =? k then v else lookup_field k fs'
  end.

(** [v.k] for the field names the helpers read ([type], [parent],
    [callee], [name], ...): a [TypeError] on [undefined] and [null], the
    field's value on an object, [undefined] when the field is missing or
    [v] is a primitive or an array. *)
Definition get (v : value) (k : string) : result value :=
  match v with
  | VUndefined | VNull => Throw TypeError
  | VObj fs => Ok (lookup_field k fs)
  | _ => Ok VUndefined
  end.

(** [v?.k] *)
Definition get_opt (v : value) (k : string) : result value :=
  if nullish v then Ok VUndefined else get v k.

(** [a && b]: [b] is evaluated only when [a] is truthy. *)
Definition js_and (a : value) (b : unit -> result value) : result value :=
  if truthy a then b tt else Ok a.

(** [a || b] *)
Definition js_or (a : value) (b : unit -> result value) : result value :=
  if truthy a then Ok a else b tt.

(** [a ?? b] *)
Definition js_coalesce (a b : value) : value :=
  if nullish a then b else a.

Notation "a '&&>' b" := (js_and a (fun _ => b))
  (at level 41, right associativity).
Notation "a '||>' b" := (js_or a (fun _ => b))
  (at level 51, right associativity).

(** [v === s] for a string constant [s]. *)
Definition strict_eq_str (v : value) (s : string) : value :=
  match v with
  | VStr s' => VBool (s' =? s)
  | _ => VBool false
  end.

(** [typeof v === 'string'] *)
Definition typeof_is_string (v : value) : value :=
  match v with
  | VStr _ => VBool true
  | _ => VBool false
  end.

(** [ToString] on the values above ([String(v)], and the coercion of
    the argument of [endsWith] and of [RegExp.prototype.test]). *)
Fixpoint ToString (v : value) : string :=
  match v with
  | VUndefined => "undefined"
  | VNull => "null"
  | VBool true => "true"
  | VBool false => "false"
  | VNum n => pretty n
  | VStr s => s
  | VArr l =>
      (fix join (l : list value) : string :=
         match l with
         | [] => ""
         | x :: l' =>
             let sx := if nullish x then "" else ToString x in
             match l' with
             | [] => sx
             | _ :: _ => sx +:+ "," +:+ join l'
             end
         end) l
  | VObj _ => "[object Object]"
  end.

(** The receiver of an array method ([find], [some]): anything that is
    not an array has no such method, and the call is a [TypeError]. *)
Definition as_array (v : value) : result (list value) :=
  match v with
  | VArr l => Ok l
  | _ => Throw TypeError
  end.

(** [l.find(p)] and [l.some(p)] with a callback that may throw. *)
Fixpoint js_find (p : value -> result value) (l : list value) : result value :=
  match l with
  | [] => Ok VUndefined
  | x :: l' =>
      let* b := p x in
      if truthy b then Ok x else js_find p l'
  end.

Fixpoint js_some {A} (p : A -> result value) (l : list A) : result value :=
  match l with
  | [] => Ok (VBool false)
  | x :: l' =>
      let* b := p x in
      if truthy b then Ok (VBool true) else js_some p l'
  end.

(** ** String searches *)

Fixpoint prefixb (p s : string) : bool :=
  match p, s with
  | EmptyString, _ => true
  | String a p', String b s' => (Ascii.eqb a b) && prefixb p' s'
  | String _ _, EmptyString => false
  end.

(** Substring search: [new RegExp(p).test(s)] for a pattern [p] made of
    literal characters only. *)
Fixpoint containsb (p s : string) : bool :=
  prefixb p s ||
  match s with
  | EmptyString => false
  | String _ s' => containsb p s'
  end.

(** [s.endsWith(p)] *)
Fixpoint endsWithb (s p : string) : bool :=
  (s =? p) ||
  match s with
  | EmptyString => false
  | String _ s' => endsWithb s' p
  end.

(** ** Node types *)

(** The members of the parser's [AST_NODE_TYPES] enumeration that the
    helpers name; each is the string of its own name. *)
Module AST_NODE_TYPES.
Definition ArrayExpression := "ArrayExpression".
Definition ArrowFunctionExpression := "ArrowFunctionExpression".
Definition AwaitExpression := "AwaitExpression".
Definition BlockStatement := "BlockStatement".
Definition CallExpression := "CallExpression".
Definition Identifier := "Identifier".
Definition ImportDeclaration := "ImportDeclaration".
Definition ImportDefaultSpecifier := "ImportDefaultSpecifier".
Definition ImportNamespaceSpecifier := "ImportNamespaceSpecifier".
Definition ImportSpecifier := "ImportSpecifier".
Definition JSXAttribute := "JSXAttribute".
Definition Literal := "Literal".
Definition MemberExpression := "MemberExpression".
Definition ObjectExpression := "ObjectExpression".
Definition ObjectPattern := "ObjectPattern".
Definition Property := "Property".
Definition ReturnStatement := "ReturnStatement".
Definition VariableDeclarator := "VariableDeclarator".
End AST_NODE_TYPES.

(** ** node-utils: shape predicates *)

(** [node && node.type === t] *)
Definition guarded_type_is (node : value) (t : string) : result value :=
  node &&> (let* ty := get node "type" in Ok (strict_eq_str ty t)).

(** [node?.type === t] *)
Definition optional_type_is (node : value) (t : string) : result value :=
  let* ty := get_opt node "type" in Ok (strict_eq_str ty t).

Definition isCallExpression (node : value) : result value :=
  guarded_type_is node AST_NODE_TYPES.CallExpression.

Definition isIdentifier (node : value) : result value :=
  guarded_type_is node AST_NODE_TYPES.Identifier.

Definition isMemberExpression (node : value) : result value :=
  guarded_type_is node AST_NODE_TYPES.MemberExpression.

Definition isLiteral (node : value) : result value :=
  guarded_type_is node AST_NODE_TYPES.Literal.

Definition isImportSpecifier (node : value) : result value :=
  guarded_type_is node AST_NODE_TYPES.ImportSpecifier.

Definition isImportNamespaceSpecifier (node : value) : result value :=
  optional_type_is node AST_NODE_TYPES.ImportNamespaceSpecifier.

Definition isImportDefaultSpecifier (node : value) : result value :=
  guarded_type_is node AST_NODE_TYPES.ImportDefaultSpecifier.

Definition isBlockStatement (node : value) : result value :=
  guarded_type_is node AST_NODE_TYPES.BlockStatement.

Definition isVariableDeclarator (node : value) : result value :=
  guarded_type_is node AST_NODE_TYPES.VariableDeclarator.

Definition isObjectPattern (node : value) : result value :=
  guarded_type_is node AST_NODE_TYPES.ObjectPattern.

Definition isProperty (node : value) : result value :=
  guarded_type_is node AST_NODE_TYPES.Property.

Definition isJSXAttribute (node : value) : result value :=
  guarded_type_is node AST_NODE_TYPES.JSXAttribute.

Definition isObjectExpression (node : value) : result value :=
  optional_type_is node AST_NODE_TYPES.ObjectExpression.

Definition isAwaitExpression (node : value) : result value :=
  guarded_type_is node AST_NODE_TYPES.AwaitExpression.

Definition isArrowFunctionExpression (node : value) : result value :=
  guarded_type_is node AST_NODE_TYPES.ArrowFunctionExpression.

Definition isReturnStatement (node : value) : result value :=
  guarded_type_is node AST_NODE_TYPES.ReturnStatement.

Definition isArrayExpression (node : value) : result value :=
  optional_type_is node AST_NODE_TYPES.ArrayExpression.

(** Modelled from the spec: [isImportDeclaration] is imported from
    [node-utils] by the detection helpers but is not part of the
    available source; the spec lists it among the shape predicates
    (one per recognised shape, total, a non-match on anything else), so
    it is written like its siblings. *)
Definition isImportDeclaration (node : value) : result value :=
  optional_type_is node AST_NODE_TYPES.ImportDeclaration.

Definition isRenderFunction (callNode : value) (renderFunctions : list string)
  : result value :=
  js_some (fun name =>
    let* byName :=
      (let* callee := get callNode "callee" in
       let* b := isIdentifier callee in
       b &&> (let* n := get callee "name" in Ok (strict_eq_str n name))) in
    byName ||> (let* callee := get callNode "callee" in
              let* b := isMemberExpression callee in
              b &&> (let* property := get callee "property" in
                     let* b' := isIdentifier property in
                     b' &&> (let* n := get property "name" in
                             Ok (strict_eq_str n name)))))
    renderFunctions.

Definition hasThenProperty (node : value) : result value :=
  let* b := isMemberExpression node in
  b &&> (let* property := get node "property" in
         let* b' := isIdentifier property in
         b' &&> (let* n := get property "name" in Ok (strict_eq_str n "then"))).

Definition isAwaited (node : value) : result value :=
  let* a := isAwaitExpression node in
  a ||> (let* b := isArrowFunctionExpression node in
         b ||> isReturnStatement node).

Definition isPromiseResolved (node : value) : result value :=
  let* parent := get node "parent" in
  let* b := isCallExpression parent in
  if truthy b then
    let* grandparent := get parent "parent" in
    hasThenProperty grandparent
  else hasThenProperty parent.

(** ** node-utils: parent-chain ascents *)

(** The ascents recurse on [node.parent].  A parent link is a field of
    the node, so following it strictly decreases the size of the value,
    which is the termination measure. *)
Fixpoint vsize (v : value) : nat :=
  match v with
  | VArr l => S (list_sum (map vsize l))
  | VObj fs =>
      S ((fix fields_size (fs : list (string * value)) : nat :=
            match fs with
            | [] => 0
            | (_, x) :: fs' => vsize x + fields_size fs'
            end) fs)
  | _ => 1
  end.

(** Closes [vsize parent < vsize node] from [get node k = Ok parent] and
    [truthy parent = true]. *)
Ltac parent_is_smaller :=
  match goal with
  | Hget : get ?node _ = Ok ?parent, Ht : truthy ?parent = true
    |- vsize ?parent < vsize ?node =>
      revert Hget Ht; clear; intros Hget Ht;
      destruct node as [| | | | |?|fs]; simpl in Hget;
      try discriminate Hget; injection Hget as <-; try discriminate Ht;
      induction fs as [|[? ?] ? IH]; simpl in *; [discriminate Ht|];
      match goal with
      | _ : context [if ?c then _ else _] |- _ =>
          destruct c; [lia | specialize (IH Ht); lia]
      end
  end.

Equations? findClosestCallExpressionNode (node : value) : result value
  by wf (vsize node) lt :=
  findClosestCallExpressionNode node with isCallExpression node := {
    | Throw e => Throw e
    | Ok b with truthy b := {
      | true => Ok node
      | false with inspect (get node "parent") := {
        | exist _ (Throw e) _ => Throw e
        | exist _ (Ok parent) Hparent with inspect (truthy parent) := {
          | exist _ false _ => Ok VNull
          | exist _ true Htruthy => findClosestCallExpressionNode parent } } } }.
Proof. parent_is_smaller. Qed.

Equations? findClosestCallNode (node : value) (name : string) : result value
  by wf (vsize node) lt :=
  findClosestCallNode node name with inspect (get node "parent") := {
    | exist _ (Throw e) _ => Throw e
    | exist _ (Ok parent) Hparent with inspect (truthy parent) := {
      | exist _ false _ => Ok VNull
      | exist _ true Htruthy
          with (let* b := isCallExpression node in
                b &&> (let* callee := get node "callee" in
                       let* b' := isIdentifier callee in
                       b' &&> (let* n := get callee "name" in
                               Ok (strict_eq_str n name)))) := {
        | Throw e => Throw e
        | Ok c with truthy c := {
          | true => Ok node
          | false => findClosestCallNode parent name } } } }.
Proof. parent_is_smaller. Qed.

(** ** Regular expressions for the filename pattern *)

(** The fragment of JavaScript patterns a filename pattern is written
    in: literal and escaped characters, [.], character sets, the
    anchors, grouping, alternation and the quantifiers [*] and [?]. *)
Inductive regex : Type :=
| REmpty
| RChar (c : ascii)
| RAny
| RClass (cs : list ascii)
| RBol
| REol
| RSeq (r1 r2 : regex)
| RAlt (r1 r2 : regex)
| RStar (r : regex)
| ROpt (r : regex).

(** [.] matches any character except the line terminators. *)
Definition is_line_terminator (a : ascii) : bool :=
  (Ascii.eqb a "010") || (Ascii.eqb a "013").

(** The iteration of [RStar]: zero or more rounds of [m], each of which
    has to consume input, so that [length s] rounds are enough. *)
Fixpoint star_loop (m : bool -> string -> (bool -> string -> bool) -> bool)
    (k : bool -> string -> bool) (n : nat) (bol : bool) (s : string) : bool :=
  k bol s ||
  match n with
  | O => false
  | S n' =>
      m bol s (fun bol' s' =>
        Nat.ltb (String.length s') (String.length s) && star_loop m k n' bol' s')
  end.

(** [rmatch r bol s k]: can [r] match a prefix of [s] so that the
    continuation [k] accepts what is left?  [bol] tells whether [s] is
    the whole subject (position 0), which is where [^] matches. *)
Fixpoint rmatch (r : regex) (bol : bool) (s : string)
    (k : bool -> string -> bool) : bool :=
  match r with
  | REmpty => k bol s
  | RChar c =>
      match s with
      | String a s' => Ascii.eqb a c && k false s'
      | EmptyString => false
      end
  | RAny =>
      match s with
      | String a s' => negb (is_line_terminator a) && k false s'
      | EmptyString => false
      end
  | RClass cs =>
      match s with
      | String a s' => existsb (Ascii.eqb a) cs && k false s'
      | EmptyString => false
      end
  | RBol => bol && k bol s
  | REol =>
      match s with
      | EmptyString => k bol s
      | String _ _ => false
      end
  | RSeq r1 r2 => rmatch r1 bol s (fun bol' s' => rmatch r2 bol' s' k)
  | RAlt r1 r2 => rmatch r1 bol s k || rmatch r2 bol s k
  | RStar r0 => star_loop (rmatch r0) k (String.length s) bol s
  | ROpt r0 => rmatch r0 bol s k || k bol s
  end.

(** Does [r] match at the current position, ending anywhere? *)
Definition match_here (r : regex) (bol : bool) (s : string) : bool :=
  rmatch r bol s (fun _ _ => true).

(** [!!s.match(r)]: try every start position from left to right. *)
Fixpoint search_from (r : regex) (bol : bool) (s : string) : bool :=
  match_here r bol s ||
  match s with
  | EmptyString => false
  | String _ s' => search_from r false s'
  end.

Definition regex_search (r : regex) (s : string) : bool :=
  search_from r true s.

(** *** Reading a pattern from its source text *)

Definition is_pattern_syntax (c : ascii) : bool :=
  existsb (Ascii.eqb c)
    ["^"; "$"; "\"; "."; "*"; "+"; "?"; "("; ")"; "["; "]"; "{"; "}"; "|"]%char.

(** The members of a character set, up to the closing bracket (no
    ranges, no negation, no escapes). *)
Fixpoint parse_class (s : list ascii) : option (list ascii * list ascii) :=
  match s with
  | [] => None
  | c :: s' =>
      if Ascii.eqb c "]" then Some ([], s')
      else if (Ascii.eqb c "\" || Ascii.eqb c "-" || Ascii.eqb c "^")%bool then None
      else '(cs, rest) ← parse_class s'; Some (c :: cs, rest)
  end.

Definition parse_quantifier (a : regex) (s : list ascii) : regex * list ascii :=
  match s with
  | c :: s' =>
      if Ascii.eqb c "*" then (RStar a, s')
      else if Ascii.eqb c "?" then (ROpt a, s')
      else (a, s)
  | [] => (a, s)
  end.

(** Disjunction, alternative and term of the pattern grammar, by
    recursive descent; [fuel] bounds the nesting and the length. *)
Fixpoint parse_disjunction (fuel : nat) (s : list ascii)
  : option (regex * list ascii) :=
  match fuel with
  | O => None
  | S fuel' =>
      let parse_term (s : list ascii) : option (regex * list ascii) :=
        match s with
        | [] => None
        | c :: s' =>
            if Ascii.eqb c "." then Some (parse_quantifier RAny s')
            else if Ascii.eqb c "^" then Some (RBol, s')
            else if Ascii.eqb c "$" then Some (REol, s')
            else if Ascii.eqb c "\" then
              match s' with
              | e :: s'' =>
                  if is_pattern_syntax e then Some (parse_quantifier (RChar e) s'')
                  else None
              | [] => None
              end
            else if Ascii.eqb c "(" then
              '(d, rest) ← parse_disjunction fuel' s';
              match rest with
              | c' :: rest' =>
                  if Ascii.eqb c' ")" then Some (parse_quantifier d rest')
                  else None
              | [] => None
              end
            else if Ascii.eqb c "[" then
              '(cs, rest) ← parse_class s';
              Some (parse_quantifier (RClass cs) rest)
            else if is_pattern_syntax c then None
            else Some (parse_quantifier (RChar c) s')
        end in
      let parse_alternative :=
        (fix parse_alternative (n : nat) (s : list ascii)
           : option (regex * list ascii) :=
           match s with
           | [] => Some (REmpty, s)
           | c :: _ =>
               if (Ascii.eqb c "|" || Ascii.eqb c ")")%bool then Some (REmpty, s)
               else
                 match n with
                 | O => None
                 | S n' =>
                     '(t, rest) ← parse_term s;
                     '(a, rest') ← parse_alternative n' rest;
                     Some (match a with REmpty => t | _ => RSeq t a end, rest')
                 end
           end) in
      '(a, rest) ← parse_alternative (length s) s;
      match rest with
      | c :: rest' =>
          if Ascii.eqb c "|" then
            '(d, rest'') ← parse_disjunction fuel' rest';
            Some (RAlt a d, rest'')
          else Some (a, rest)
      | [] => Some (a, rest)
      end
  end.

(** [new RegExp(source)] on that fragment; [None] outside it. *)
Definition RegExp (source : string) : option regex :=
  let s := list_ascii_of_string source in
  match parse_disjunction (S (length s)) s with
  | Some (r, []) => Some r
  | _ => None
  end.

(** The text of the default pattern: the JavaScript string literal
    ['^.*\\.(test|spec)\\.[jt]sx?$'] denotes these characters. *)
Definition DEFAULT_FILENAME_PATTERN_source : string :=
  "^.*\.(test|spec)\.[jt]sx?$".

(** [DEFAULT_FILENAME_PATTERN], compiled. *)
Definition DEFAULT_FILENAME_PATTERN : regex :=
  RSeq RBol
    (RSeq (RStar RAny)
       (RSeq (RChar ".")
          (RSeq
             (RAlt
                (RSeq (RChar "t") (RSeq (RChar "e") (RSeq (RChar "s") (RChar "t"))))
                (RSeq (RChar "s") (RSeq (RChar "p") (RSeq (RChar "e") (RChar "c")))))
             (RSeq (RChar ".")
                (RSeq (RClass ["j"; "t"]%char)
                   (RSeq (RChar "s") (RSeq (ROpt (RChar "x")) REol))))))).

(** ** detect-testing-library-utils: settings and state *)

(** The shared settings: ['testing-library/module'] and
    ['testing-library/filename-pattern'] (the latter already compiled). *)
Record TestingLibrarySettings : Type := {
  testing_library_module : option string;
  testing_library_filename_pattern : option regex;
}.

(** What the helpers read from the rule context. *)
Record TestingLibraryContext : Type := {
  settings : TestingLibrarySettings;
  getFilename : string;
}.

(** The two variables the enhanced rule closes over, one pair per file. *)
Record DetectionState : Type := {
  importedTestingLibraryNode : value;
  importedCustomModuleNode : value;
}.

Definition initialState : DetectionState :=
  {| importedTestingLibraryNode := VNull; importedCustomModuleNode := VNull |}.

Definition set_importedTestingLibraryNode (node : value) (st : DetectionState) :=
  {| importedTestingLibraryNode := node;
     importedCustomModuleNode := importedCustomModuleNode st |}.

Definition set_importedCustomModuleNode (node : value) (st : DetectionState) :=
  {| importedTestingLibraryNode := importedTestingLibraryNode st;
     importedCustomModuleNode := node |}.

(** A setting that is absent reads as [undefined]. *)
Definition setting_value (o : option string) : value :=
  match o with
  | Some s => VStr s
  | None => VUndefined
  end.

Definition customModule (context : TestingLibraryContext) : value :=
  setting_value (testing_library_module (settings context)).

Definition filenamePattern (context : TestingLibraryContext) : regex :=
  match testing_library_filename_pattern (settings context) with
  | Some r => r
  | None => DEFAULT_FILENAME_PATTERN
  end.

(** [/testing-library/g.test(v)]: the literal is evaluated afresh at each
    use, so the search always starts at the beginning of the string. *)
Definition test_testing_library (v : value) : bool :=
  containsb "testing-library" (ToString v).

(** ** The detection helpers *)

(** The helpers close over the two variables; here they take the
    current state. *)
Definition getTestingLibraryImportNode (st : DetectionState) : value :=
  importedTestingLibraryNode st.

Definition getCustomModuleImportNode (st : DetectionState) : value :=
  importedCustomModuleNode st.

Definition getIsTestingLibraryImported (context : TestingLibraryContext)
    (st : DetectionState) : bool :=
  if negb (truthy (customModule context)) then true
  else truthy (importedTestingLibraryNode st)
       || truthy (importedCustomModuleNode st).

Definition getIsValidFilename (context : TestingLibraryContext) : bool :=
  let fileName := getFilename context in
  regex_search (filenamePattern context) fileName.

Definition canReportErrors (context : TestingLibraryContext)
    (st : DetectionState) : bool :=
  getIsTestingLibraryImported context st && getIsValidFilename context.

(** The body of [findImportedUtilSpecifier] once the import node to
    inspect has been selected. *)
Definition findSpecifierIn (node : value) (specifierName : string)
  : result value :=
  let* isDeclaration := isImportDeclaration node in
  if truthy isDeclaration then
    let* specifiers := bind (get node "specifiers") as_array in
    let* namedExport := js_find (fun n =>
      let* b := isImportSpecifier n in
      b &&> (let* imported := get n "imported" in
             let* name := get imported "name" in
             Ok (strict_eq_str name specifierName))) specifiers in
    if truthy namedExport then Ok namedExport
    else
      let* specifiers := bind (get node "specifiers") as_array in
      js_find (fun n => isImportNamespaceSpecifier n) specifiers
  else
    let* requireNode := get node "parent" in
    let* id := get requireNode "id" in
    let* isId := isIdentifier id in
    if truthy isId then get requireNode "id"
    else
      let* destructuring := get requireNode "id" in
      let* properties := bind (get destructuring "properties") as_array in
      let* property := js_find (fun n =>
        let* b := isProperty n in
        b &&> (let* key := get n "key" in
               let* b' := isIdentifier key in
               b' &&> (let* key := get n "key" in
                       let* name := get key "name" in
                       Ok (strict_eq_str name specifierName)))) properties in
      get property "key".

Definition findImportedUtilSpecifier (st : DetectionState)
    (specifierName : string) : result value :=
  let node := js_coalesce (getCustomModuleImportNode st)
                          (getTestingLibraryImportNode st) in
  if negb (truthy node) then Ok VNull
  else findSpecifierIn node specifierName.

(** ** The detection listeners *)

(** The selector of the second listener,
    [CallExpression > Identifier[name=...]] with the quoted name
    [require]. *)
Definition REQUIRE_SELECTOR : string :=
  "CallExpression > Identifier[name=" +:+ String "034" "require"
  +:+ String "034" "]".

Definition IMPORT_SELECTOR : string := "ImportDeclaration".

(** The [ImportDeclaration] listener.  Each of the two tests is made
    only while its slot is still falsy. *)
Definition ImportDeclaration (context : TestingLibraryContext)
    (node : value) (st : DetectionState) : result DetectionState :=
  let* found :=
    ((if negb (truthy (importedTestingLibraryNode st)) then
        let* source := get node "source" in
        let* v := get source "value" in
        Ok (test_testing_library v)
      else Ok false) : result bool) in
  let st := if found then set_importedTestingLibraryNode node st else st in
  let* found :=
    ((if negb (truthy (importedCustomModuleNode st)) then
        let* source := get node "source" in
        let* v := get source "value" in
        Ok (endsWithb (ToString v) (ToString (customModule context)))
      else Ok false) : result bool) in
  let st := if found then set_importedCustomModuleNode node st else st in
  Ok st.

(** The listener of [REQUIRE_SELECTOR]: [node] is the [require]
    identifier, the call is its parent. *)
Definition RequireCall (context : TestingLibraryContext)
    (node : value) (st : DetectionState) : result DetectionState :=
  let* callExpression := get node "parent" in
  let* args := get callExpression "arguments" in
  let* found :=
    ((if negb (truthy (importedTestingLibraryNode st)) then
        let* l := as_array args in
        let* r := js_some (fun arg =>
          let* b := isLiteral arg in
          b &&> (let* v := get arg "value" in
                 typeof_is_string v
                 &&> (let* v := get arg "value" in
                      Ok (VBool (test_testing_library v))))) l in
        Ok (truthy r)
      else Ok false) : result bool) in
  let st := if found then set_importedTestingLibraryNode callExpression st
            else st in
  let* found :=
    ((if negb (truthy (importedCustomModuleNode st)) then
        let* l := as_array args in
        let* r := js_some (fun arg =>
          let* b := isLiteral arg in
          b &&> (let* v := get arg "value" in
                 typeof_is_string v
                 &&> (let* v := get arg "value" in
                      Ok (VBool (endsWithb (ToString v)
                                   (ToString (customModule context))))))) l in
        Ok (truthy r)
      else Ok false) : result bool) in
  let st := if found then set_importedCustomModuleNode callExpression st
            else st in
  Ok st.

Definition DetectionListener : Type :=
  value -> DetectionState -> result DetectionState.

Definition detectionInstructions (context : TestingLibraryContext)
  : gmap string DetectionListener :=
  <[IMPORT_SELECTOR := ImportDeclaration context]>
    (<[REQUIRE_SELECTOR := RequireCall context]> ∅).

(** ** Merging the detection listeners with a rule's listeners *)

Section Enhance.
(** What a rule keeps for itself between two calls of its listeners
    (its own variables, the reports it has made). *)
Context {RuleState : Type}.

(** A rule's listener gets the node; through the helpers it can read
    the detection state but not write it. *)
Definition RuleListener : Type :=
  value -> DetectionState -> RuleState -> result (value * RuleState).

Definition EnhancedListener : Type :=
  value -> DetectionState * RuleState ->
  result (value * (DetectionState * RuleState)).

Variable context : TestingLibraryContext.
Variable ruleInstructions : gmap string RuleListener.

Definition object_keys {A} (m : gmap string A) : list string :=
  (map_to_list m).*1.

Definition allKeys : gset string :=
  list_to_set (object_keys (detectionInstructions context)
               ++ object_keys ruleInstructions).

(** The listener stored under [instruction]. *)
Definition enhancedListener (instruction : string) : EnhancedListener :=
  fun node '(st, rs) =>
    let* st :=
      match detectionInstructions context !! instruction with
      | Some detect => detect node st
      | None => Ok st
      end in
    if canReportErrors context st then
      match ruleInstructions !! instruction with
      | Some listener =>
          let* (v, rs) := listener node st rs in
          Ok (v, (st, rs))
      | None => Ok (VUndefined, (st, rs))
      end
    else Ok (VUndefined, (st, rs)).

Definition enhancedRuleInstructions : gmap string EnhancedListener :=
  set_fold (fun instruction enhanced =>
              <[instruction := enhancedListener instruction]> enhanced)
           ∅ allKeys.
End Enhance.

(** ** The traversal, as far as detection sees it *)

(** The host engine walks the tree once and calls the listener of each
    selector that matches the visited node; for the detection state
    only the two detection selectors matter. *)
Inductive visit : Type :=
| VisitImportDeclaration (node : value)
| VisitRequire (node : value).

Definition detect (context : TestingLibraryContext) (v : visit)
    (st : DetectionState) : result DetectionState :=
  match v with
  | VisitImportDeclaration node => ImportDeclaration context node st
  | VisitRequire node => RequireCall context node st
  end.

Fixpoint traverse (context : TestingLibraryContext) (vs : list visit)
    (st : DetectionState) : result DetectionState :=
  match vs with
  | [] => Ok st
  | v :: vs' =>
      let* st' := detect context v st in
      traverse context vs' st'
  end.

(** The states a file's traversal can reach. *)
Definition reachable (context : TestingLibraryContext)
    (st : DetectionState) : Prop :=
  exists vs, traverse context vs initialState = Ok st.

(** The shape the parser guarantees for the nodes the two detection
    selectors match: an import declaration has a [source] node, and the
    [require] identifier sits in a call that has an argument list. *)
Definition well_formed (v : visit) : bool :=
  match v with
  | VisitImportDeclaration node =>
      match get node "source" with
      | Ok (VObj _) => true
      | _ => false
      end
  | VisitRequire node =>
      match get node "parent" with
      | Ok call =>
          match get call "arguments" with
          | Ok (VArr _) => true
          | _ => false
          end
      | _ => false
      end
  end.

(** ** Nodes as the parser builds them *)

Definition node_type (node : value) : option string :=
  match node with
  | VObj fs =>
      match lookup_field "type" fs with
      | VStr t => Some t
      | _ => None
      end
  | _ => None
  end.

(** A slot of the detection state is [Empty] while it holds [null] and
    [Recorded] once it holds a node. *)
Definition Empty (slot : value) : Prop := slot = VNull.
Definition Recorded (slot : value) : Prop := exists fs, slot = VObj fs.

Definition Identifier_node (name : string) : value :=
  VObj [("type", VStr AST_NODE_TYPES.Identifier); ("name", VStr name)].

Definition Literal_node (v : value) : value :=
  VObj [("type", VStr AST_NODE_TYPES.Literal); ("value", v)].

Inductive specifier : Type :=
| NamedSpecifier (imported local : string)
| NamespaceSpecifier (local : string)
| DefaultSpecifier (local : string).

Definition specifier_node (s : specifier) : value :=
  match s with
  | NamedSpecifier imported local =>
      VObj [("type", VStr AST_NODE_TYPES.ImportSpecifier);
            ("imported", Identifier_node imported);
            ("local", Identifier_node local)]
  | NamespaceSpecifier local =>
      VObj [("type", VStr AST_NODE_TYPES.ImportNamespaceSpecifier);
            ("local", Identifier_node local)]
  | DefaultSpecifier local =>
      VObj [("type", VStr AST_NODE_TYPES.ImportDefaultSpecifier);
            ("local", Identifier_node local)]
  end.

(** [import <specifiers> from '<source>'] *)
Definition ImportDeclaration_node (specifiers : list specifier)
    (source : string) : value :=
  VObj [("type", VStr AST_NODE_TYPES.ImportDeclaration);
        ("source", Literal_node (VStr source));
        ("specifiers", VArr (map specifier_node specifiers))].

(** [key: local] inside a destructuring pattern *)
Definition Property_node (key local : string) : value :=
  VObj [("type", VStr AST_NODE_TYPES.Property);
        ("key", Identifier_node key);
        ("value", Identifier_node local)].

(** [{ key1: local1, ... }] *)
Definition ObjectPattern_node (properties : list (string * string)) : value :=
  VObj [("type", VStr AST_NODE_TYPES.ObjectPattern);
        ("properties",
         VArr (map (fun p => Property_node (fst p) (snd p)) properties))].

(** [<id> = ...], seen from the initialiser: only the binding target. *)
Definition VariableDeclarator_node (id : value) : value :=
  VObj [("type", VStr AST_NODE_TYPES.VariableDeclarator); ("id", id)].

(** [require(<args>)] below [parent] *)
Definition require_call (args : list value) (parent : value) : value :=
  VObj [("type", VStr AST_NODE_TYPES.CallExpression);
        ("callee", Identifier_node "require");
        ("arguments", VArr args);
        ("parent", parent)].

(** The [require] identifier of that call, which is what the second
    detection selector matches. *)
Definition require_identifier (call : value) : value :=
  VObj [("type", VStr AST_NODE_TYPES.Identifier);
        ("name", VStr "require");
        ("parent", call)].

Definition is_named (name : string) (s : specifier) : bool :=
  match s with
  | NamedSpecifier imported _ => imported =? name
  | _ => false
  end.

Definition is_namespace (s : specifier) : bool :=
  match s with
  | NamespaceSpecifier _ => true
  | _ => false
  end.

(** ** What it means for a pattern to match *)

(** [matches r bol s bol' s']: read from position [s] of the subject
    ([bol] tells whether that is position 0), [r] can match up to
    position [s'].  This is the usual meaning of the pattern operators,
    stated without reference to the matcher. *)
Inductive matches : regex -> bool -> string -> bool -> string -> Prop :=
| m_empty bol s : matches REmpty bol s bol s
| m_char c bol s : matches (RChar c) bol (String c s) false s
| m_any a bol s :
    is_line_terminator a = false -> matches RAny bol (String a s) false s
| m_class a cs bol s :
    In a cs -> matches (RClass cs) bol (String a s) false s
| m_bol s : matches RBol true s true s
| m_eol bol : matches REol bol "" bol ""
| m_seq r1 r2 bol s bol1 s1 bol2 s2 :
    matches r1 bol s bol1 s1 -> matches r2 bol1 s1 bol2 s2 ->
    matches (RSeq r1 r2) bol s bol2 s2
| m_alt_l r1 r2 bol s bol' s' :
    matches r1 bol s bol' s' -> matches (RAlt r1 r2) bol s bol' s'
| m_alt_r r1 r2 bol s bol' s' :
    matches r2 bol s bol' s' -> matches (RAlt r1 r2) bol s bol' s'
| m_star_done r bol s : matches (RStar r) bol s bol s
| m_star_more r bol s bol1 s1 bol2 s2 :
    matches r bol s bol1 s1 -> matches (RStar r) bol1 s1 bol2 s2 ->
    matches (RStar r) bol s bol2 s2
| m_opt_some r bol s bol' s' :
    matches r bol s bol' s' -> matches (ROpt r) bol s bol' s'
| m_opt_none r bol s : matches (ROpt r) bol s bol s.

(** An unanchored search succeeds when the pattern matches from some
    position of the subject. *)
Definition matches_somewhere (r : regex) (subject : string) : Prop :=
  exists before rest bol' s',
    subject = before +:+ rest /\
    matches r (before =? "") rest bol' s'.

(** ** Notions used in the statements *)

(** The predicates that compare the [type] tag, each with its tag. *)
Definition type_predicates : list ((value -> result value) * string) :=
  [ (isCallExpression, "CallExpression");
    (isIdentifier, "Identifier");
    (isMemberExpression, "MemberExpression");
    (isLiteral, "Literal");
    (isImportSpecifier, "ImportSpecifier");
    (isImportNamespaceSpecifier, "ImportNamespaceSpecifier");
    (isImportDefaultSpecifier, "ImportDefaultSpecifier");
    (isBlockStatement, "BlockStatement");
    (isVariableDeclarator, "VariableDeclarator");
    (isObjectPattern, "ObjectPattern");
    (isProperty, "Property");
    (isJSXAttribute, "JSXAttribute");
    (isObjectExpression, "ObjectExpression");
    (isAwaitExpression, "AwaitExpression");
    (isArrowFunctionExpression, "ArrowFunctionExpression");
    (isReturnStatement, "ReturnStatement");
    (isArrayExpression, "ArrayExpression") ].

(** Each slot is [null] or a node, all along the traversal. *)
Definition slots_ok (st : DetectionState) : Prop :=
  (Empty (importedTestingLibraryNode st) \/
   Recorded (importedTestingLibraryNode st)) /\
  (Empty (importedCustomModuleNode st) \/
   Recorded (importedCustomModuleNode st)).

(** A custom module counts as configured when the setting is a
    non-empty string: the helpers test the setting's truthiness, so an
    absent setting and the empty string are both "not configured". *)
Definition module_configured (context : TestingLibraryContext) : bool :=
  match testing_library_module (settings context) with
  | Some s => negb (s =? "")
  | None => false
  end.

(** The test [findImportedUtilSpecifier] applies to each specifier of a
    declaration. *)
Definition named_specifier_test (specifierName : string) (n : value)
  : result value :=
  let* b := isImportSpecifier n in
  b &&> (let* imported := get n "imported" in
         let* name := get imported "name" in
         Ok (strict_eq_str name specifierName)).

(** The test it applies to each property of a destructuring pattern. *)
Definition property_key_test (specifierName : string) (n : value)
  : result value :=
  let* b := isProperty n in
  b &&> (let* key := get n "key" in
         let* b' := isIdentifier key in
         b' &&> (let* key := get n "key" in
                 let* name := get key "name" in
                 Ok (strict_eq_str name specifierName))).

(** A matcher in continuation-passing style is [sound] for [r] when it
    only accepts what [r] matches, and [monotone] when a more
    permissive continuation never makes it reject. *)
Definition sound (r : regex)
    (m : bool -> string -> (bool -> string -> bool) -> bool) : Prop :=
  forall bol s k,
    m bol s k = true ->
    exists bol' s', matches r bol s bol' s' /\ k bol' s' = true.

Definition monotone
    (m : bool -> string -> (bool -> string -> bool) -> bool) : Prop :=
  forall bol s (k1 k2 : bool -> string -> bool),
    (forall bol' s', k1 bol' s' = true -> k2 bol' s' = true) ->
    m bol s k1 = true -> m bol s k2 = true.

(** ** Example files *)

(** A context with the given module setting and filename, and the
    default filename pattern. *)
Definition context_with (module : option string) (fileName : string)
  : TestingLibraryContext :=
  {| settings := {| testing_library_module := module;
                    testing_library_filename_pattern := None |};
     getFilename := fileName |}.

(** A call [name()] that has no parent link. *)
Definition parentless_call (name : string) : value :=
  VObj [("type", VStr AST_NODE_TYPES.CallExpression);
        ("callee", Identifier_node name);
        ("arguments", VArr [])].

(** [const { key1: local1, ... } = require('<source>')] *)
Definition destructured_require (source : string)
    (properties : list (string * string)) : value :=
  require_call [Literal_node (VStr source)]
    (VariableDeclarator_node (ObjectPattern_node properties)).

(** [const <name> = require('<source>')] *)
Definition plain_require (source name : string) : value :=
  require_call [Literal_node (VStr source)]
    (VariableDeclarator_node (Identifier_node name)).

(** [import { render } from '../my-test-utils'] *)
Definition my_test_utils_import : value :=
  ImportDeclaration_node [NamedSpecifier "render" "render"] "../my-test-utils".

Definition my_test_utils_state : DetectionState :=
  {| importedTestingLibraryNode := VNull;
     importedCustomModuleNode := my_test_utils_import |}.

(** [import { render } from '@testing-library/react'] *)
Definition react_import : value :=
  ImportDeclaration_node [NamedSpecifier "render" "render"]
                         "@testing-library/react".

(** [import { screen } from '@testing-library/dom'] *)
Definition dom_import : value :=
  ImportDeclaration_node [NamedSpecifier "screen" "screen"]
                         "@testing-library/dom".

(** The [require] of [const vtl = require('@testing-library/vue')] *)
Definition vue_require : value :=
  require_identifier (plain_require "@testing-library/vue" "vtl").

(** [import defaultExport, { screen, render as doRender } from
    '@testing-library/react'] *)
Definition aliased_import : value :=
  ImportDeclaration_node
    [DefaultSpecifier "defaultExport";
     NamedSpecifier "screen" "screen";
     NamedSpecifier "render" "doRender"]
    "@testing-library/react".

(** [const { render: r } = require('@testing-library/react')] *)
Definition render_require : value :=
  destructured_require "@testing-library/react" [("render", "r")].

Definition render_require_state : DetectionState :=
  {| importedTestingLibraryNode := render_require;
     importedCustomModuleNode := VNull |}.

(** [import helper from './undefined'] *)
Definition undefined_import : value :=
  ImportDeclaration_node [DefaultSpecifier "helper"] "./undefined".

(** [const helper = require('./undefined')] *)
Definition undefined_require : value :=
  plain_require "./undefined" "helper".

(** A rule that notes each import declaration it is shown. *)
Definition noting_rule : gmap string (@RuleListener (list string)) :=
  {[ IMPORT_SELECTOR :=
       fun (node : value) (st : DetectionState) (seen : list string) =>
         Ok (VStr "noted", "import" :: seen) ]}.

(** ** Walking the parent links *)

(** [on_parent_chain node a]: [a] is [node] or one of its ancestors. *)
Inductive on_parent_chain : value -> value -> Prop :=
| chain_self node : on_parent_chain node node
| chain_parent node parent a :
    get node "parent" = Ok parent -> truthy parent = true ->
    on_parent_chain parent a -> on_parent_chain node a.

(** [nearest P node r]: [r] is the first node satisfying [P] met when
    going from [node] up the parent links. *)
Inductive nearest (P : value -> Prop) : value -> value -> Prop :=
| nearest_here node : P node -> nearest P node node
| nearest_above node parent r :
    ~ P node ->
    get node "parent" = Ok parent -> truthy parent = true ->
    nearest P parent r -> nearest P node r.

Definition is_call (a : value) : Prop :=
  node_type a = Some "CallExpression".

(** [a] is the call [name(...)]. *)
Definition is_call_to (name : string) (a : value) : Prop :=
  node_type a = Some "CallExpression" /\
  exists callee,
    get a "callee" = Ok callee /\
    node_type callee = Some "Identifier" /\
    get callee "name" = Ok (VStr name).

Definition has_parent (a : value) : Prop :=
  exists parent, get a "parent" = Ok parent /\ truthy parent = true.

(** The test [findClosestCallNode] makes on each node. *)
Definition named_call_test (node : value) (name : string) : result value :=
  let* b := isCallExpression node in
  b &&> (let* callee := get node "callee" in
         let* b' := isIdentifier callee in
         b' &&> (let* n := get callee "name" in
                 Ok (strict_eq_str n name))).

(** ** What the composite predicates look for *)

(** [v] is the identifier [name]. *)
Definition identifier_named (name : string) (v : value) : Prop :=
  node_type v = Some "Identifier" /\ get v "name" = Ok (VStr name).

(** [v] is a member access [_.name]. *)
Definition member_access_named (name : string) (v : value) : Prop :=
  node_type v = Some "MemberExpression" /\
  exists property,
    get v "property" = Ok property /\ identifier_named name property.

(** ** node-utils: getVariableReferences *)

(** [v.slice(1)]: arrays and strings have the method, nothing else. *)
Definition js_slice_from_1 (v : value) : result value :=
  match v with
  | VArr l => Ok (VArr (tail l))
  | VStr s => Ok (VStr (match s with String _ s' => s' | EmptyString => "" end))
  | _ => Throw TypeError
  end.

(** [l[0]] on an array *)
Definition js_first (l : list value) : value :=
  match l with
  | x :: _ => x
  | [] => VUndefined
  end.

Section VariableReferences.
(** [context.getDeclaredVariables], the host's scope analysis: for a
    node, the array of the variables it declares. *)
Variable getDeclaredVariables : value -> list value.

Definition getVariableReferences (node : value) : result value :=
  let* references :=
    (let* b := isVariableDeclarator node in
     b &&> (let* references :=
              get (js_first (getDeclaredVariables node)) "references" in
            js_slice_from_1 references)) in
  references ||> Ok (VArr []).
End VariableReferences.

(** [const a = 1; use(a); use(a)]: the declaration and two uses. *)
Definition declared_a : value :=
  VObj [("name", VStr "a");
        ("references", VArr [VStr "declaration"; VStr "use 1"; VStr "use 2"])].

(** ** What the detection listeners look for *)

Definition contains_marker (s : string) : Prop :=
  exists before after, s = before +:+ "testing-library" +:+ after.

(** The module source of an import declaration, as text. *)
Definition import_source_text (node : value) (text : string) : Prop :=
  exists source v,
    get node "source" = Ok source /\ get source "value" = Ok v /\
    ToString v = text.

(** [call] has the string literal [s] among its arguments. *)
Definition string_argument (call : value) (s : string) : Prop :=
  exists args arg,
    get call "arguments" = Ok (VArr args) /\ In arg args /\
    node_type arg = Some "Literal" /\ get arg "value" = Ok (VStr s).

(** The test the [require] listener applies to each argument. *)
Definition literal_test (f : value -> bool) (arg : value) : result value :=
  let* b := isLiteral arg in
  b &&> (let* v := get arg "value" in
         typeof_is_string v
         &&> (let* v := get arg "value" in Ok (VBool (f v)))).

(** The visits that pass the target-library test, and those that pass
    the custom-module test. *)
Definition names_testing_library (v : visit) : Prop :=
  match v with
  | VisitImportDeclaration n =>
      exists text, import_source_text n text /\ contains_marker text
  | VisitRequire n =>
      exists call s, get n "parent" = Ok call /\ string_argument call s /\
                     contains_marker s
  end.

Definition names_module (name : string) (v : visit) : Prop :=
  match v with
  | VisitImportDeclaration n =>
      exists text before, import_source_text n text /\ text = before +:+ name
  | VisitRequire n =>
      exists call s before,
        get n "parent" = Ok call /\ string_argument call s /\
        s = before +:+ name
  end.


(** ** The host calling the merged listeners *)

Section Host.
Context {RuleState : Type}.

(** One call by the host: the listener registered under [selector], if
    there is one, on [node]. *)
Definition dispatch (listeners : gmap string (@EnhancedListener RuleState))
    (selector : string) (node : value) (s : DetectionState * RuleState)
  : result (value * (DetectionState * RuleState)) :=
  match listeners !! selector with
  | Some listener => listener node s
  | None => Ok (VUndefined, s)
  end.

(** The calls of one traversal, in order, with what each returned. *)
Fixpoint run_listeners (listeners : gmap string (@EnhancedListener RuleState))
    (calls : list (string * value)) (s : DetectionState * RuleState)
  : result (list value * (DetectionState * RuleState)) :=
  match calls with
  | [] => Ok ([], s)
  | (selector, node) :: rest =>
      let* (v, s') := dispatch listeners selector node s in
      let* (vs, s'') := run_listeners listeners rest s' in
      Ok (v :: vs, s'')
  end.
End Host.

(** The calls that concern detection. *)
Definition visit_of (call : string * value) : list visit :=
  if fst call =? IMPORT_SELECTOR then [VisitImportDeclaration (snd call)]
  else if fst call =? REQUIRE_SELECTOR then [VisitRequire (snd call)]
  else [].

Definition visits_of (calls : list (string * value)) : list visit :=
  flat_map visit_of calls.

(** ** Filenames *)


(** ** The rule render-result-naming-convention *)

Module RenderResultNamingConvention.

Definition RULE_NAME : string := "render-result-naming-convention".

Definition ALLOWED_VAR_NAMES : list string := ["view"; "utils"].

(** [context.report({ node, messageId, data: { varName } })] *)
Record Report : Type := {
  report_node : value;
  report_messageId : string;
  report_varName : value;
}.

(** The two variables [create] closes over, and the reports made so
    far. *)
Record RuleVars : Type := {
  renderAlias : value;
  wildcardImportName : value;
  reports : list Report;
}.

Definition initialVars : RuleVars :=
  {| renderAlias := VUndefined; wildcardImportName := VUndefined;
     reports := [] |}.

(** [l.includes(v)] for a list of strings *)
Definition js_includes (l : list string) (v : value) : bool :=
  match v with
  | VStr s => existsb (String.eqb s) l
  | _ => false
  end.

(** [ASTUtils.isIdentifier] of the parser's utilities:
    [node?.type === AST_NODE_TYPES.Identifier]. *)
Definition ASTUtils_isIdentifier (node : value) : result value :=
  optional_type_is node AST_NODE_TYPES.Identifier.

Section Rule.
(** [hasTestingLibraryImportModule] (from [utils]) and
    [isRenderVariableDeclarator] (from [node-utils]) are not part of the
    available source: the rule is modelled for any two such
    functions. *)
Variable hasTestingLibraryImportModule : value -> result value.
Variable isRenderVariableDeclarator : value -> list value -> result value.

(** Whether two objects are the same object, which the value model does
    not record. *)
Variable same_reference : value -> value -> bool.

(** The rule's option. *)
Variable renderFunctions : list string.

(** [a === b] *)
Definition strict_eq (a b : value) : bool :=
  match a, b with
  | VUndefined, VUndefined => true
  | VNull, VNull => true
  | VBool x, VBool y => Bool.eqb x y
  | VNum x, VNum y => (x =? y)%Z
  | VStr x, VStr y => (x =? y)
  | (VArr _ | VObj _), (VArr _ | VObj _) => same_reference a b
  | _, _ => false
  end.

Definition ImportDeclaration (node : value) (vars : RuleVars)
  : result RuleVars :=
  let* has := hasTestingLibraryImportModule node in
  if negb (truthy has) then Ok vars
  else
    let* specifiers := bind (get node "specifiers") as_array in
    let* renderImport := js_find (fun node =>
      let* b := isImportSpecifier node in
      b &&> (let* imported := get node "imported" in
             let* name := get imported "name" in
             Ok (strict_eq_str name "render"))) specifiers in
    if negb (truthy renderImport) then Ok vars
    else
      let* local := get renderImport "local" in
      let* name := get local "name" in
      Ok {| renderAlias := name;
            wildcardImportName := wildcardImportName vars;
            reports := reports vars |}.

(** The listener of [ImportDeclaration ImportNamespaceSpecifier]. *)
Definition ImportNamespaceSpecifier (node : value) (vars : RuleVars)
  : result RuleVars :=
  let* parent := get node "parent" in
  let* has := hasTestingLibraryImportModule parent in
  if negb (truthy has) then Ok vars
  else
    let* local := get node "local" in
    let* name := get local "name" in
    Ok {| renderAlias := renderAlias vars;
          wildcardImportName := name;
          reports := reports vars |}.

Definition VariableDeclarator (node : value) (vars : RuleVars)
  : result RuleVars :=
  let* id := get node "id" in
  let* isPattern := isObjectPattern id in
  if truthy isPattern then Ok vars
  else
    let* isValidRenderDeclarator :=
      isRenderVariableDeclarator node
        (map VStr renderFunctions ++ [renderAlias vars]) in
    let isValidWildcardImport := truthy (wildcardImportName vars) in
    if negb (truthy isValidRenderDeclarator) && negb isValidWildcardImport
    then Ok vars
    else
      let* renderFunctionName :=
        (let* init := get node "init" in
         let* b := isCallExpression init in
         b &&> (let* init := get node "init" in
                let* callee := get init "callee" in
                let* b' := ASTUtils_isIdentifier callee in
                b' &&> (let* init := get node "init" in
                        let* callee := get init "callee" in
                        get callee "name"))) in
      let* renderFunctionObjectName :=
        (let* init := get node "init" in
         let* b := isCallExpression init in
         b &&> (let* init := get node "init" in
                let* callee := get init "callee" in
                let* b1 := isMemberExpression callee in
                b1 &&> (let* property := get callee "property" in
                        let* b2 := ASTUtils_isIdentifier property in
                        b2 &&> (let* object := get callee "object" in
                                let* b3 := ASTUtils_isIdentifier object in
                                b3 &&> (let* property := get callee "property" in
                                        let* name := get property "name" in
                                        strict_eq_str name "render"
                                        &&> (let* object := get callee "object" in
                                             get object "name")))))) in
      let isRenderAlias := truthy (renderAlias vars) in
      let isCustomRender := js_includes renderFunctions renderFunctionName in
      let isWildCardRender :=
        truthy renderFunctionObjectName
        && strict_eq renderFunctionObjectName (wildcardImportName vars) in
      if negb isRenderAlias && negb isCustomRender && negb isWildCardRender
      then Ok vars
      else
        let* renderResultName :=
          (let* id := get node "id" in
           let* b := ASTUtils_isIdentifier id in
           b &&> (let* id := get node "id" in get id "name")) in
        let isAllowedRenderResultName :=
          js_includes ALLOWED_VAR_NAMES renderResultName in
        if isAllowedRenderResultName then Ok vars
        else
          Ok {| renderAlias := renderAlias vars;
                wildcardImportName := wildcardImportName vars;
                reports := reports vars ++
                  [{| report_node := node;
                      report_messageId := "renderResultNamingConvention";
                      report_varName := renderResultName |}] |}.
End Rule.

(** The three values the [VariableDeclarator] listener computes from
    the node: the name of the function called by the initialiser, the
    object name of a [x.render(...)] initialiser, and the name
    bound. *)
Definition renderFunctionName_of (node : value) : result value :=
  let* init := get node "init" in
  let* b := isCallExpression init in
  b &&> (let* init := get node "init" in
         let* callee := get init "callee" in
         let* b' := ASTUtils_isIdentifier callee in
         b' &&> (let* init := get node "init" in
                 let* callee := get init "callee" in
                 get callee "name")).

Definition renderFunctionObjectName_of (node : value) : result value :=
  let* init := get node "init" in
  let* b := isCallExpression init in
  b &&> (let* init := get node "init" in
         let* callee := get init "callee" in
         let* b1 := isMemberExpression callee in
         b1 &&> (let* property := get callee "property" in
                 let* b2 := ASTUtils_isIdentifier property in
                 b2 &&> (let* object := get callee "object" in
                         let* b3 := ASTUtils_isIdentifier object in
                         b3 &&> (let* property := get callee "property" in
                                 let* name := get property "name" in
                                 strict_eq_str name "render"
                                 &&> (let* object := get callee "object" in
                                      get object "name"))))).

Definition renderResultName_of (node : value) : result value :=
  let* id := get node "id" in
  let* b := ASTUtils_isIdentifier id in
  b &&> (let* id := get node "id" in get id "name").

Definition with_report (node varName : value) (vars : RuleVars) : RuleVars :=
  {| renderAlias := renderAlias vars;
     wildcardImportName := wildcardImportName vars;
     reports := reports vars ++
       [{| report_node := node;
           report_messageId := "renderResultNamingConvention";
           report_varName := varName |}] |}.

(** Example declarators: [<id> = <init>] *)
Definition declarator (id init : value) : value :=
  VObj [("type", VStr AST_NODE_TYPES.VariableDeclarator);
        ("id", id); ("init", init)].

(** Variables after [import { render } from '@testing-library/react'] *)
Definition render_imported : RuleVars :=
  {| renderAlias := VStr "render"; wildcardImportName := VUndefined;
     reports := [] |}.

(** Variables after both a named and a wildcard import. *)
Definition both_imported : RuleVars :=
  {| renderAlias := VStr "render"; wildcardImportName := VStr "rtl";
     reports := [] |}.

(** Stand-ins for the two helpers in the examples: every declaration
    imports Testing Library, and a declarator is a render declarator
    when its initialiser is a call. *)
Definition always_imported (node : value) : result value := Ok (VBool true).

Definition initialised_by_call (node : value) (names : list value)
  : result value :=
  let* init := get node "init" in isCallExpression init.

Definition never_same (a b : value) : bool := false.

End RenderResultNamingConvention.

(** * Properties *)

(** ** JavaScript values *)

Lemma node_type_object (v : value) (t : string) :
  node_type v = Some t -> exists fs, v = VObj fs.
Proof. destruct v; simpl; try discriminate. eauto. Qed.

Lemma get_object (fs : list (string * value)) (k : string) :
  get (VObj fs) k = Ok (lookup_field k fs).
Proof. reflexivity. Qed.

Lemma strict_eq_str_truthy (v : value) (s : string) :
  truthy (strict_eq_str v s) = true <-> v = VStr s.
Proof.
  destruct v; simpl; split; intros H; try discriminate.
  - apply String.eqb_eq in H. now subst.
  - injection H as ->. apply String.eqb_refl.
Qed.

(** ** Shape predicates *)

(** Both ways of comparing the tag answer on every value, truthy exactly
    on the objects that carry the tag. *)
Lemma guarded_type_is_spec (node : value) (t : string) :
  exists r, guarded_type_is node t = Ok r /\
            (truthy r = true <-> node_type node = Some t).
Proof.
  unfold guarded_type_is, js_and.
  destruct (truthy node) eqn:E.
  - destruct node as [| |b|n|s|l|fs]; simpl in *; try discriminate;
      (eexists; split; [reflexivity|]);
      try (simpl; split; congruence).
    rewrite strict_eq_str_truthy.
    destruct (lookup_field "type" fs); split; congruence.
  - eexists; split; [reflexivity|]. rewrite E. split; [discriminate|].
    intros H. apply node_type_object in H as [fs ->]. discriminate.
Qed.

Lemma optional_type_is_spec (node : value) (t : string) :
  exists r, optional_type_is node t = Ok r /\
            (truthy r = true <-> node_type node = Some t).
Proof.
  unfold optional_type_is, get_opt.
  destruct node as [| |b|n|s|l|fs]; simpl;
    try (eexists; split; [reflexivity|]; simpl; split; congruence).
  eexists; split; [reflexivity|].
  rewrite strict_eq_str_truthy.
  destruct (lookup_field "type" fs); split; congruence.
Qed.

Lemma type_predicates_spec (node : value) :
  Forall (fun pt : (value -> result value) * string =>
            exists r, fst pt node = Ok r /\
                      (truthy r = true <-> node_type node = Some (snd pt)))
         type_predicates.
Proof.
  unfold type_predicates.
  repeat (apply Forall_cons; split;
          [first [apply guarded_type_is_spec | apply optional_type_is_spec]|]).
  apply Forall_nil. exact I.
Qed.

(** [b && node.field.name === s], after [b] has answered whether [node]
    carries the expected tag: no fault either way. *)
Lemma identifier_name_is_total (id : value) (s : string) :
  exists r,
    (let* b' := isIdentifier id in
     b' &&> (let* n := get id "name" in Ok (strict_eq_str n s))) = Ok r.
Proof.
  destruct (guarded_type_is_spec id "Identifier") as (b & Hb & Hiff).
  unfold isIdentifier, AST_NODE_TYPES.Identifier. rewrite Hb. simpl.
  unfold js_and. destruct (truthy b) eqn:E; [|eauto].
  destruct (node_type_object _ _ (proj1 Hiff eq_refl)) as [fs ->].
  simpl. eauto.
Qed.

Lemma hasThenProperty_total (node : value) :
  exists r, hasThenProperty node = Ok r /\
            (truthy r = true -> node_type node = Some "MemberExpression").
Proof.
  unfold hasThenProperty.
  destruct (guarded_type_is_spec node "MemberExpression") as (b & Hb & Hiff).
  unfold isMemberExpression, AST_NODE_TYPES.MemberExpression.
  rewrite Hb. simpl. unfold js_and at 1.
  destruct (truthy b) eqn:E.
  - pose proof (proj1 Hiff eq_refl) as Hty.
    destruct (node_type_object _ _ Hty) as [fs ->]. simpl.
    destruct (identifier_name_is_total (lookup_field "property" fs) "then")
      as [r Hr].
    exists r. split; [exact Hr | auto].
  - exists b. split; [reflexivity | congruence].
Qed.

Lemma isAwaited_total (node : value) :
  exists r, isAwaited node = Ok r /\
            (truthy r = true <->
             node_type node = Some "AwaitExpression" \/
             node_type node = Some "ArrowFunctionExpression" \/
             node_type node = Some "ReturnStatement").
Proof.
  unfold isAwaited, isAwaitExpression, isArrowFunctionExpression,
    isReturnStatement.
  destruct (guarded_type_is_spec node AST_NODE_TYPES.AwaitExpression)
    as (a & Ha & Hia).
  destruct (guarded_type_is_spec node AST_NODE_TYPES.ArrowFunctionExpression)
    as (b & Hb & Hib).
  destruct (guarded_type_is_spec node AST_NODE_TYPES.ReturnStatement)
    as (c & Hc & Hic).
  rewrite Ha, Hb, Hc. simpl. unfold js_or.
  unfold AST_NODE_TYPES.AwaitExpression, AST_NODE_TYPES.ArrowFunctionExpression,
    AST_NODE_TYPES.ReturnStatement in *.
  destruct (truthy a) eqn:Ea; [|destruct (truthy b) eqn:Eb].
  - exists a. split; [reflexivity|]. rewrite Ea. tauto.
  - exists b. split; [reflexivity|]. rewrite Eb. tauto.
  - exists c. split; [reflexivity|]. rewrite <- Hic.
    split; [tauto|]. intros [H|[H|H]]; [| |exact H].
    + apply Hia in H. congruence.
    + apply Hib in H. congruence.
Qed.

(** [some] with a callback that never throws never throws. *)
Lemma js_some_total {A} (p : A -> result value) (l : list A) :
  (forall x, exists r, p x = Ok r) ->
  exists b, js_some p l = Ok (VBool b).
Proof.
  intros Hp. induction l as [|x l IH]; simpl; [eauto|].
  destruct (Hp x) as [r ->]. simpl. destruct (truthy r); eauto.
Qed.

Lemma isRenderFunction_total (fs : list (string * value))
    (renderFunctions : list string) :
  exists b, isRenderFunction (VObj fs) renderFunctions = Ok (VBool b).
Proof.
  unfold isRenderFunction. apply js_some_total. intros name.
  rewrite get_object.
  change (bind (Ok ?v) ?f) with (f v). cbv beta.
  destruct (identifier_name_is_total (lookup_field "callee" fs) name)
    as [r1 ->].
  change (bind (Ok ?v) ?f) with (f v). cbv beta.
  unfold js_or. destruct (truthy r1); [eauto|].
  destruct (guarded_type_is_spec (lookup_field "callee" fs) "MemberExpression")
    as (b & Hb & Hiff).
  unfold isMemberExpression, AST_NODE_TYPES.MemberExpression.
  rewrite Hb. change (bind (Ok ?v) ?f) with (f v). cbv beta.
  unfold js_and at 1. destruct (truthy b) eqn:E; [|eauto].
  destruct (node_type_object _ _ (proj1 Hiff eq_refl)) as [cfs ->].
  rewrite get_object. change (bind (Ok ?v) ?f) with (f v). cbv beta.
  apply identifier_name_is_total.
Qed.

Lemma isPromiseResolved_total (fs : list (string * value)) :
  exists r, isPromiseResolved (VObj fs) = Ok r.
Proof.
  unfold isPromiseResolved. simpl.
  destruct (guarded_type_is_spec (lookup_field "parent" fs) "CallExpression")
    as (b & Hb & Hiff).
  unfold isCallExpression, AST_NODE_TYPES.CallExpression. rewrite Hb. simpl.
  destruct (truthy b) eqn:E.
  - destruct (node_type_object _ _ (proj1 Hiff eq_refl)) as [pfs ->]. simpl.
    destruct (hasThenProperty_total (lookup_field "parent" pfs)) as (r & -> & _).
    eauto.
  - destruct (hasThenProperty_total (lookup_field "parent" fs)) as (r & -> & _).
    eauto.
Qed.

(** C9.  Every shape predicate answers on every value: on a node, on a
    node whose expected fields are missing, and on [undefined] or
    [null].  A predicate that compares the [type] tag answers truthy
    exactly on the objects carrying its tag and falsy on everything
    else; [hasThenProperty] and [isAwaited] answer on every value, and
    [isRenderFunction] and [isPromiseResolved] on every object.  None of
    them raises a fault.  They are functions of the node alone and
    return only the verdict: reading is all they do to the tree. *)
Theorem shape_predicates_total (node : value) :
  Forall (fun pt : (value -> result value) * string =>
            exists r, fst pt node = Ok r /\
                      (truthy r = true <-> node_type node = Some (snd pt)))
         type_predicates
  /\ (exists r, hasThenProperty node = Ok r /\
                (truthy r = true -> node_type node = Some "MemberExpression"))
  /\ (exists r, isAwaited node = Ok r /\
                (truthy r = true <->
                 node_type node = Some "AwaitExpression" \/
                 node_type node = Some "ArrowFunctionExpression" \/
                 node_type node = Some "ReturnStatement"))
  /\ (forall fs renderFunctions,
        exists b, isRenderFunction (VObj fs) renderFunctions = Ok (VBool b))
  /\ (forall fs, exists r, isPromiseResolved (VObj fs) = Ok r).
Proof.
  split; [apply type_predicates_spec|].
  split; [apply hasThenProperty_total|].
  split; [apply isAwaited_total|].
  split; [apply isRenderFunction_total | apply isPromiseResolved_total].
Qed.

(** ** Parent-chain ascents *)

Lemma findClosestCallNode_no_parent (node : value) (name : string) (p : value) :
  get node "parent" = Ok p -> truthy p = false ->
  findClosestCallNode node name = Ok VNull.
Proof.
  intros Hp Ht. funelim (findClosestCallNode node name); congruence.
Qed.

Lemma findClosestCallExpressionNode_self (node : value) :
  node_type node = Some "CallExpression" ->
  findClosestCallExpressionNode node = Ok node.
Proof.
  intros Hty.
  destruct (guarded_type_is_spec node "CallExpression") as (b & Hb & Hiff).
  apply Hiff in Hty.
  funelim (findClosestCallExpressionNode node);
    unfold isCallExpression, AST_NODE_TYPES.CallExpression in *; congruence.
Qed.

(** C10.  On a node without a parent link ([parent] missing,
    [undefined] or [null]) [findClosestCallNode] answers [null] whatever
    the node is, also when the node itself is the call [name()] that is
    looked for; [findClosestCallExpressionNode] on a call expression
    answers that call expression, parent or not. *)
Theorem root_call_asymmetry (fs : list (string * value)) (name : string) :
  truthy (lookup_field "parent" fs) = false ->
  findClosestCallNode (VObj fs) name = Ok VNull
  /\ (node_type (VObj fs) = Some "CallExpression" ->
      findClosestCallExpressionNode (VObj fs) = Ok (VObj fs))
  /\ findClosestCallNode (parentless_call name) name = Ok VNull
  /\ findClosestCallExpressionNode (parentless_call name)
     = Ok (parentless_call name).
Proof.
  intros Hno. split; [|split; [|split]].
  - eapply findClosestCallNode_no_parent; [apply get_object | exact Hno].
  - apply findClosestCallExpressionNode_self.
  - eapply findClosestCallNode_no_parent; [apply get_object | reflexivity].
  - apply findClosestCallExpressionNode_self. reflexivity.
Qed.

Lemma root_call_asymmetry_witness :
  truthy (lookup_field "parent"
            [("type", VStr "CallExpression");
             ("callee", Identifier_node "render")]) = false
  /\ findClosestCallNode
       (VObj [("type", VStr "CallExpression");
              ("callee", Identifier_node "render")]) "render" = Ok VNull
  /\ findClosestCallExpressionNode
       (VObj [("type", VStr "CallExpression");
              ("callee", Identifier_node "render")])
     = Ok (VObj [("type", VStr "CallExpression");
                 ("callee", Identifier_node "render")]).
Proof.
  split; [reflexivity|].
  destruct (root_call_asymmetry
              [("type", VStr "CallExpression");
               ("callee", Identifier_node "render")] "render" eq_refl)
    as (Hnull & Hself & _).
  split; [exact Hnull | apply Hself; reflexivity].
Defined.

(** ** The detection state *)

(** Case analysis along a listener's body: each field read, each array
    method and each condition, innermost first. *)
Ltac crunch :=
  repeat first
    [ progress (unfold set_importedTestingLibraryNode,
                  set_importedCustomModuleNode)
    | progress cbv zeta
    | progress simpl
    | match goal with
      | H : truthy ?x = _ |- context [truthy ?x] => rewrite H
      | |- context [bind (get ?a ?k) _] => destruct (get a k) eqn:?
      | |- context [bind (as_array ?a) _] => destruct (as_array a) eqn:?
      | |- context [bind (js_some ?p ?l) _] => destruct (js_some p l) eqn:?
      | |- context [if ?c then _ else _] =>
          lazymatch c with
          | context [if _ then _ else _] => fail
          | _ => destruct c eqn:?
          end
      end ].

(** Only an object has a field that can itself be read, or a field
    holding an array. *)
Lemma get_field_object (node : value) (k1 k2 : string) (s v : value) :
  get node k1 = Ok s -> get s k2 = Ok v -> Recorded node.
Proof.
  destruct node; simpl; try discriminate; intros [= <-]; try discriminate.
  intros _. eexists. reflexivity.
Qed.

Lemma get_array_object (node : value) (k : string) (a : value) (l : list value) :
  get node k = Ok a -> as_array a = Ok l -> Recorded node.
Proof.
  destruct node; simpl; try discriminate; intros [= <-]; try discriminate.
  intros _. eexists. reflexivity.
Qed.

(** What one call of a listener can do to a slot: leave it, or fill it
    (it was falsy) with the node at hand, which is then an object. *)
Lemma ImportDeclaration_step (context : TestingLibraryContext)
    (node : value) (st st' : DetectionState) :
  ImportDeclaration context node st = Ok st' ->
  (importedTestingLibraryNode st' = importedTestingLibraryNode st \/
   truthy (importedTestingLibraryNode st) = false /\
   importedTestingLibraryNode st' = node /\ Recorded node) /\
  (importedCustomModuleNode st' = importedCustomModuleNode st \/
   truthy (importedCustomModuleNode st) = false /\
   importedCustomModuleNode st' = node /\ Recorded node).
Proof.
  unfold ImportDeclaration. destruct st as [tl cm]. simpl.
  destruct (truthy tl) eqn:Etl; destruct (truthy cm) eqn:Ecm; crunch;
    intros H; try discriminate H; inversion H; subst; simpl;
    try match goal with
    | H1 : get ?n _ = Ok ?s, H2 : get ?s _ = Ok _ |- _ =>
        pose proof (get_field_object _ _ _ _ _ H1 H2)
    end;
    intuition eauto.
Qed.

Lemma RequireCall_step (context : TestingLibraryContext)
    (node : value) (st st' : DetectionState) :
  RequireCall context node st = Ok st' ->
  exists callExpression,
  get node "parent" = Ok callExpression /\
  (importedTestingLibraryNode st' = importedTestingLibraryNode st \/
   truthy (importedTestingLibraryNode st) = false /\
   importedTestingLibraryNode st' = callExpression /\
   Recorded callExpression) /\
  (importedCustomModuleNode st' = importedCustomModuleNode st \/
   truthy (importedCustomModuleNode st) = false /\
   importedCustomModuleNode st' = callExpression /\
   Recorded callExpression).
Proof.
  unfold RequireCall. destruct st as [tl cm]. simpl.
  destruct (truthy tl) eqn:Etl; destruct (truthy cm) eqn:Ecm; crunch;
    intros H; try discriminate H; inversion H; subst; simpl;
    eexists; (split; [reflexivity|]);
    try match goal with
    | H1 : get ?n _ = Ok ?s, H2 : as_array ?s = Ok _ |- _ =>
        pose proof (get_array_object _ _ _ _ H1 H2)
    end;
    intuition eauto.
Qed.

Lemma Recorded_truthy (v : value) : Recorded v -> truthy v = true.
Proof. intros [fs ->]. reflexivity. Qed.

(** The same for a visit of either kind. *)
Lemma detect_step (context : TestingLibraryContext) (v : visit)
    (st st' : DetectionState) :
  detect context v st = Ok st' ->
  (importedTestingLibraryNode st' = importedTestingLibraryNode st \/
   truthy (importedTestingLibraryNode st) = false /\
   Recorded (importedTestingLibraryNode st')) /\
  (importedCustomModuleNode st' = importedCustomModuleNode st \/
   truthy (importedCustomModuleNode st) = false /\
   Recorded (importedCustomModuleNode st')).
Proof.
  destruct v as [node|node]; simpl; intros H.
  - apply ImportDeclaration_step in H as [[->|(? & -> & ?)] [->|(? & -> & ?)]];
      auto.
  - apply RequireCall_step in H
      as (call & _ & [->|(? & -> & ?)] & [->|(? & -> & ?)]); auto.
Qed.

(** Once a slot holds a truthy value no listener writes it again. *)
Lemma traverse_keeps (context : TestingLibraryContext) (vs : list visit) :
  forall st st',
    traverse context vs st = Ok st' ->
    (truthy (importedTestingLibraryNode st) = true ->
     importedTestingLibraryNode st' = importedTestingLibraryNode st) /\
    (truthy (importedCustomModuleNode st) = true ->
     importedCustomModuleNode st' = importedCustomModuleNode st).
Proof.
  induction vs as [|v vs IH]; simpl; intros st st' H.
  - injection H as <-. auto.
  - destruct (detect context v st) as [st1|] eqn:E; simpl in H; [|discriminate].
    apply detect_step in E as [Htl Hcm]. apply IH in H as [IHtl IHcm].
    split; intros Ht.
    + destruct Htl as [Heq|[Hf _]]; [|congruence].
      rewrite <- Heq. apply IHtl. congruence.
    + destruct Hcm as [Heq|[Hf _]]; [|congruence].
      rewrite <- Heq. apply IHcm. congruence.
Qed.

Lemma traverse_slots_ok (context : TestingLibraryContext) (vs : list visit) :
  forall st st',
    slots_ok st -> traverse context vs st = Ok st' -> slots_ok st'.
Proof.
  induction vs as [|v vs IH]; simpl; intros st st' Hok H.
  - injection H as <-. exact Hok.
  - destruct (detect context v st) as [st1|] eqn:E; simpl in H; [|discriminate].
    apply (IH st1 st'); [|exact H].
    apply detect_step in E as [Htl Hcm]. destruct Hok as [Ho1 Ho2].
    split.
    + destruct Htl as [->|[_ Hr]]; auto.
    + destruct Hcm as [->|[_ Hr]]; auto.
Qed.

Lemma reachable_slots_ok (context : TestingLibraryContext) (st : DetectionState) :
  reachable context st -> slots_ok st.
Proof.
  intros [vs H]. eapply traverse_slots_ok; [|exact H].
  split; left; reflexivity.
Qed.

(** The listeners finish on the nodes the parser builds. *)
Lemma literal_test_total (f : value -> bool) (arg : value) :
  exists r,
    (let* b := isLiteral arg in
     b &&> (let* v := get arg "value" in
            typeof_is_string v
            &&> (let* v := get arg "value" in Ok (VBool (f v))))) = Ok r.
Proof.
  destruct (guarded_type_is_spec arg "Literal") as (b & Hb & Hiff).
  unfold isLiteral, AST_NODE_TYPES.Literal. rewrite Hb. simpl.
  unfold js_and at 1. destruct (truthy b) eqn:E; [|eauto].
  destruct (node_type_object _ _ (proj1 Hiff eq_refl)) as [fs ->].
  simpl. destruct (lookup_field "value" fs); simpl; eauto.
Qed.

Lemma detect_total (context : TestingLibraryContext) (v : visit)
    (st : DetectionState) :
  well_formed v = true -> exists st', detect context v st = Ok st'.
Proof.
  destruct v as [node|node]; simpl.
  - unfold ImportDeclaration.
    destruct (get node "source") as [[| | | | | |sfs]|] eqn:Es; try discriminate.
    intros _. simpl.
    destruct st as [tl cm]. simpl.
    destruct (truthy tl); simpl;
      try destruct (test_testing_library _); simpl;
      destruct (truthy cm); simpl; eauto.
  - unfold RequireCall.
    destruct (get node "parent") as [call|] eqn:Ec; try discriminate. simpl.
    destruct (get call "arguments") as [[| | | | |l|]|] eqn:Ea; try discriminate.
    intros _. simpl.
    destruct (js_some_total
      (fun arg =>
         let* b := isLiteral arg in
         b &&> (let* v := get arg "value" in
                typeof_is_string v
                &&> (let* v := get arg "value" in
                     Ok (VBool (test_testing_library v))))) l
      (literal_test_total _)) as [b1 H1].
    destruct (js_some_total
      (fun arg =>
         let* b := isLiteral arg in
         b &&> (let* v := get arg "value" in
                typeof_is_string v
                &&> (let* v := get arg "value" in
                     Ok (VBool (endsWithb (ToString v)
                                  (ToString (customModule context))))))) l
      (literal_test_total (fun v => endsWithb (ToString v)
                                      (ToString (customModule context)))))
      as [b2 H2].
    destruct st as [tl cm]. simpl.
    destruct (truthy tl); simpl;
      rewrite ?H1; simpl; destruct b1; simpl;
      destruct (truthy cm); simpl;
      rewrite ?H2; simpl; eauto.
Qed.

Lemma traverse_total (context : TestingLibraryContext) (vs : list visit) :
  forallb well_formed vs = true ->
  forall st, exists st', traverse context vs st = Ok st'.
Proof.
  induction vs as [|v vs IH]; simpl; intros Hwf st; [eauto|].
  apply andb_true_iff in Hwf as [Hv Hvs].
  destruct (detect_total context v st Hv) as [st1 ->]. simpl.
  apply IH. exact Hvs.
Qed.

(** ** The gate *)

Lemma module_configured_truthy (context : TestingLibraryContext) :
  truthy (customModule context) = module_configured context.
Proof.
  unfold customModule, module_configured.
  destruct (testing_library_module (settings context)); reflexivity.
Qed.

Lemma slot_truthy_Recorded (v : value) :
  Empty v \/ Recorded v -> (truthy v = true <-> Recorded v).
Proof.
  intros [->|[fs ->]]; simpl; split; try discriminate; try reflexivity.
  - intros [fs H]. discriminate H.
  - intros _. eexists. reflexivity.
Qed.

(** C1.  The gate is the conjunction of the import check and the
    filename check.  The import check is true whenever no custom module
    is configured, whatever the state; with a custom module configured
    it is true exactly when one of the two slots is Recorded.  (States
    are those a traversal reaches; a module setting that is absent or
    empty is "not configured".) *)
Theorem gate_decision (context : TestingLibraryContext) (st : DetectionState) :
  reachable context st ->
  (canReportErrors context st = true <->
   getIsTestingLibraryImported context st = true /\
   getIsValidFilename context = true)
  /\ (module_configured context = false ->
      forall st0, getIsTestingLibraryImported context st0 = true)
  /\ (module_configured context = true ->
      (getIsTestingLibraryImported context st = true <->
       Recorded (importedTestingLibraryNode st) \/
       Recorded (importedCustomModuleNode st))).
Proof.
  intros Hreach. apply reachable_slots_ok in Hreach as [Htl Hcm].
  split; [|split].
  - unfold canReportErrors. apply andb_true_iff.
  - intros Hno st0. unfold getIsTestingLibraryImported.
    rewrite module_configured_truthy, Hno. reflexivity.
  - intros Hyes. unfold getIsTestingLibraryImported.
    rewrite module_configured_truthy, Hyes. simpl.
    rewrite orb_true_iff.
    rewrite (slot_truthy_Recorded _ Htl), (slot_truthy_Recorded _ Hcm).
    reflexivity.
Qed.

Lemma gate_decision_witness :
  reachable (context_with (Some "my-test-utils") "app.test.js")
            my_test_utils_state
  /\ canReportErrors (context_with (Some "my-test-utils") "app.test.js")
                     my_test_utils_state = true
  /\ Recorded (importedCustomModuleNode my_test_utils_state).
Proof.
  assert (Hreach : reachable (context_with (Some "my-test-utils") "app.test.js")
                             my_test_utils_state).
  { exists [VisitImportDeclaration my_test_utils_import]. reflexivity. }
  split; [exact Hreach|].
  destruct (gate_decision _ _ Hreach) as (Hgate & _ & Himported).
  split.
  - apply Hgate. split; [|reflexivity].
    apply Himported; [reflexivity|].
    right. eexists. reflexivity.
  - eexists. reflexivity.
Defined.

(** C3.  A declaration whose source contains [testing-library], met
    while the target-library slot is Empty, is recorded into it, and
    whatever is visited afterwards (other matching declarations or
    [require] calls included) the slot still holds that node.  More
    generally a Recorded slot, target-library or custom-module, is
    never written again; and a traversal of parser-built nodes runs to
    its end. *)
Theorem first_match_wins (context : TestingLibraryContext)
    (node source : value) (src : string) (st : DetectionState) :
  get node "source" = Ok source ->
  get source "value" = Ok (VStr src) ->
  containsb "testing-library" src = true ->
  Empty (importedTestingLibraryNode st) ->
  (exists st1,
     ImportDeclaration context node st = Ok st1 /\
     importedTestingLibraryNode st1 = node /\
     Recorded node /\
     (forall later st2,
        traverse context later st1 = Ok st2 ->
        importedTestingLibraryNode st2 = node) /\
     (forall later,
        forallb well_formed later = true ->
        exists st2, traverse context later st1 = Ok st2 /\
                    importedTestingLibraryNode st2 = node))
  /\ (forall st0 later st',
        Recorded (importedTestingLibraryNode st0) ->
        traverse context later st0 = Ok st' ->
        importedTestingLibraryNode st' = importedTestingLibraryNode st0)
  /\ (forall st0 later st',
        Recorded (importedCustomModuleNode st0) ->
        traverse context later st0 = Ok st' ->
        importedCustomModuleNode st' = importedCustomModuleNode st0).
Proof.
  intros Hsource Hvalue Hmatch Hempty.
  assert (Hkeep_tl : forall st0 later st',
            Recorded (importedTestingLibraryNode st0) ->
            traverse context later st0 = Ok st' ->
            importedTestingLibraryNode st' = importedTestingLibraryNode st0).
  { intros st0 later st' Hrec Hrun.
    apply (traverse_keeps _ _ _ _ Hrun), Recorded_truthy, Hrec. }
  assert (Hkeep_cm : forall st0 later st',
            Recorded (importedCustomModuleNode st0) ->
            traverse context later st0 = Ok st' ->
            importedCustomModuleNode st' = importedCustomModuleNode st0).
  { intros st0 later st' Hrec Hrun.
    apply (traverse_keeps _ _ _ _ Hrun), Recorded_truthy, Hrec. }
  split; [|split; assumption].
  assert (Hnode : Recorded node) by (eapply get_field_object; eassumption).
  assert (Hstep : exists st1, ImportDeclaration context node st = Ok st1 /\
                              importedTestingLibraryNode st1 = node).
  { unfold ImportDeclaration. destruct st as [tl cm]. simpl in *.
    rewrite Hempty, Hsource. simpl. rewrite Hvalue. simpl.
    unfold test_testing_library. simpl. rewrite Hmatch.
    unfold set_importedTestingLibraryNode. simpl.
    destruct (truthy cm); simpl; [eauto|].
    destruct (endsWithb _ _); simpl; eauto. }
  destruct Hstep as (st1 & Hst1 & Htl1).
  exists st1. repeat split; try assumption.
  - intros later st2 Hrun. rewrite <- Htl1.
    apply (Hkeep_tl st1 later st2); [rewrite Htl1|]; assumption.
  - intros later Hwf.
    destruct (traverse_total context later Hwf st1) as [st2 Hrun].
    exists st2. split; [exact Hrun|].
    rewrite <- Htl1.
    apply (Hkeep_tl st1 later st2); [rewrite Htl1|]; assumption.
Qed.

Lemma first_match_wins_witness :
  exists st2,
    traverse (context_with None "app.test.js")
      [VisitImportDeclaration react_import;
       VisitImportDeclaration dom_import;
       VisitRequire vue_require] initialState = Ok st2
    /\ importedTestingLibraryNode st2 = react_import.
Proof.
  destruct (first_match_wins (context_with None "app.test.js")
              react_import (Literal_node (VStr "@testing-library/react"))
              "@testing-library/react" initialState
              eq_refl eq_refl eq_refl eq_refl)
    as ((st1 & Hst1 & _ & _ & _ & Htotal) & _ & _).
  destruct (Htotal [VisitImportDeclaration dom_import; VisitRequire vue_require]
                   eq_refl) as (st2 & Hrun & Htl).
  exists st2. split; [|exact Htl].
  cbn [traverse detect]. rewrite Hst1. exact Hrun.
Defined.

(** C7.  The lookup inspects the custom-module node when that slot is
    Recorded, the target-library node when only that one is, and
    answers [null] at once when both are Empty. *)
Theorem import_node_selection (st : DetectionState) (specifierName : string) :
  (Recorded (importedCustomModuleNode st) ->
   findImportedUtilSpecifier st specifierName
   = findSpecifierIn (importedCustomModuleNode st) specifierName)
  /\ (Empty (importedCustomModuleNode st) ->
      Recorded (importedTestingLibraryNode st) ->
      findImportedUtilSpecifier st specifierName
      = findSpecifierIn (importedTestingLibraryNode st) specifierName)
  /\ (Empty (importedCustomModuleNode st) ->
      Empty (importedTestingLibraryNode st) ->
      findImportedUtilSpecifier st specifierName = Ok VNull).
Proof.
  unfold findImportedUtilSpecifier, getCustomModuleImportNode,
    getTestingLibraryImportNode, js_coalesce.
  destruct st as [tl cm]. simpl. split; [|split].
  - intros [fs ->]. reflexivity.
  - intros -> [fs ->]. reflexivity.
  - intros -> ->. reflexivity.
Qed.

Lemma import_node_selection_witness :
  findImportedUtilSpecifier
    {| importedTestingLibraryNode := react_import;
       importedCustomModuleNode := my_test_utils_import |} "render"
  = findSpecifierIn my_test_utils_import "render"
  /\ findImportedUtilSpecifier
       {| importedTestingLibraryNode := react_import;
          importedCustomModuleNode := VNull |} "render"
     = findSpecifierIn react_import "render"
  /\ findImportedUtilSpecifier initialState "render" = Ok VNull.
Proof.
  split; [|split].
  - refine (proj1 (import_node_selection
                     {| importedTestingLibraryNode := react_import;
                        importedCustomModuleNode := my_test_utils_import |}
                     "render") _).
    eexists. reflexivity.
  - refine (proj1 (proj2 (import_node_selection
                     {| importedTestingLibraryNode := react_import;
                        importedCustomModuleNode := VNull |}
                     "render")) eq_refl _).
    eexists. reflexivity.
  - exact (proj2 (proj2 (import_node_selection initialState "render"))
                 eq_refl eq_refl).
Defined.

(** ** Specifier lookup *)

Lemma named_specifier_test_node (specifierName : string) (s : specifier) :
  exists r, named_specifier_test specifierName (specifier_node s) = Ok r /\
            truthy r = is_named specifierName s.
Proof.
  destruct s; simpl; eexists; (split; [reflexivity|]); reflexivity.
Qed.

Lemma namespace_test_node (s : specifier) :
  exists r, isImportNamespaceSpecifier (specifier_node s) = Ok r /\
            truthy r = is_namespace s.
Proof.
  destruct s; simpl; eexists; (split; [reflexivity|]); reflexivity.
Qed.

(** [find] over parser-built specifiers is [find] over their
    descriptions. *)
Lemma js_find_specifiers (p : value -> result value) (q : specifier -> bool)
    (specifiers : list specifier) :
  (forall s, exists r, p (specifier_node s) = Ok r /\ truthy r = q s) ->
  js_find p (map specifier_node specifiers)
  = Ok (match find q specifiers with
        | Some s => specifier_node s
        | None => VUndefined
        end).
Proof.
  intros Hp. induction specifiers as [|s l IH]; simpl; [reflexivity|].
  destruct (Hp s) as (r & Hr & Ht). rewrite Hr. simpl. rewrite Ht.
  destruct (q s); [reflexivity | exact IH].
Qed.

Lemma specifier_node_truthy (s : specifier) : truthy (specifier_node s) = true.
Proof. destruct s; reflexivity. Qed.

(** The lookup in a static declaration, as a function of its
    specifiers. *)
Lemma findSpecifierIn_declaration (node : value) (specifiers : list specifier)
    (specifierName : string) :
  node_type node = Some "ImportDeclaration" ->
  get node "specifiers" = Ok (VArr (map specifier_node specifiers)) ->
  findSpecifierIn node specifierName
  = Ok (match find (is_named specifierName) specifiers with
        | Some s => specifier_node s
        | None =>
            match find is_namespace specifiers with
            | Some s => specifier_node s
            | None => VUndefined
            end
        end).
Proof.
  intros Hty Hspecs. unfold findSpecifierIn.
  destruct (optional_type_is_spec node "ImportDeclaration") as (d & Hd & Hiff).
  unfold isImportDeclaration, AST_NODE_TYPES.ImportDeclaration.
  rewrite Hd. simpl. rewrite (proj2 Hiff Hty). rewrite Hspecs. simpl.
  fold (named_specifier_test specifierName).
  rewrite (js_find_specifiers (named_specifier_test specifierName)
             (is_named specifierName) specifiers
             (named_specifier_test_node specifierName)).
  simpl.
  destruct (find (is_named specifierName) specifiers) as [s|].
  - rewrite specifier_node_truthy. reflexivity.
  - simpl.
    apply (js_find_specifiers (fun n => isImportNamespaceSpecifier n)
             is_namespace specifiers namespace_test_node).
Qed.

Lemma find_is_named (specifierName : string) (specifiers : list specifier) :
  match find (is_named specifierName) specifiers with
  | Some s => exists local, s = NamedSpecifier specifierName local /\
                            In s specifiers
  | None => forall local, ~ In (NamedSpecifier specifierName local) specifiers
  end.
Proof.
  destruct (find (is_named specifierName) specifiers) as [s|] eqn:E.
  - apply find_some in E as [Hin Hs].
    destruct s as [imported local| |]; simpl in Hs; try discriminate.
    apply String.eqb_eq in Hs as ->. eauto.
  - intros local Hin.
    pose proof (find_none _ _ E _ Hin) as H. simpl in H.
    rewrite String.eqb_refl in H. discriminate.
Qed.

Lemma find_is_namespace (specifiers : list specifier) :
  match find is_namespace specifiers with
  | Some s => exists local, s = NamespaceSpecifier local /\ In s specifiers
  | None => forall local, ~ In (NamespaceSpecifier local) specifiers
  end.
Proof.
  destruct (find is_namespace specifiers) as [s|] eqn:E.
  - apply find_some in E as [Hin Hs].
    destruct s; simpl in Hs; try discriminate. eauto.
  - intros local Hin.
    pose proof (find_none _ _ E _ Hin) as H. discriminate.
Qed.

(** C6.  When the selected import node is a static declaration, the
    lookup answers a named specifier of the declaration whose imported
    name is the symbol (the specifier node itself, so with its local
    alias) if there is one; failing that a namespace specifier of the
    declaration if there is one; failing both, [undefined]. *)
Theorem static_declaration_lookup (st : DetectionState) (node : value)
    (specifiers : list specifier) (specifierName : string) :
  js_coalesce (getCustomModuleImportNode st) (getTestingLibraryImportNode st)
  = node ->
  node_type node = Some "ImportDeclaration" ->
  get node "specifiers" = Ok (VArr (map specifier_node specifiers)) ->
  exists r,
    findImportedUtilSpecifier st specifierName = Ok r /\
    ((exists local, In (NamedSpecifier specifierName local) specifiers) ->
     exists local, r = specifier_node (NamedSpecifier specifierName local) /\
                   In (NamedSpecifier specifierName local) specifiers) /\
    ((forall local, ~ In (NamedSpecifier specifierName local) specifiers) ->
     (exists local, In (NamespaceSpecifier local) specifiers) ->
     exists local, r = specifier_node (NamespaceSpecifier local) /\
                   In (NamespaceSpecifier local) specifiers) /\
    ((forall local, ~ In (NamedSpecifier specifierName local) specifiers) ->
     (forall local, ~ In (NamespaceSpecifier local) specifiers) ->
     r = VUndefined).
Proof.
  intros Hsel Hty Hspecs.
  unfold findImportedUtilSpecifier. rewrite Hsel.
  destruct (node_type_object _ _ Hty) as [fs Hfs].
  replace (truthy node) with true by (rewrite Hfs; reflexivity). simpl.
  rewrite (findSpecifierIn_declaration node specifiers specifierName Hty Hspecs).
  eexists. split; [reflexivity|].
  pose proof (find_is_named specifierName specifiers) as Hnamed.
  pose proof (find_is_namespace specifiers) as Hns.
  destruct (find (is_named specifierName) specifiers) as [s|].
  - destruct Hnamed as (local & -> & Hin).
    split; [eauto|]. split; intros Hnone; exfalso; eapply Hnone; eauto.
  - split; [intros [local Hin]; exfalso; eapply Hnamed; eauto|].
    destruct (find is_namespace specifiers) as [s|].
    + destruct Hns as (local & -> & Hin).
      split; [eauto|]. intros _ Hnone. exfalso. eapply Hnone; eauto.
    + split; [|reflexivity].
      intros _ [local Hin]. exfalso. eapply Hns; eauto.
Qed.

Lemma static_declaration_lookup_witness :
  findImportedUtilSpecifier
    {| importedTestingLibraryNode := aliased_import;
       importedCustomModuleNode := VNull |} "render"
  = Ok (specifier_node (NamedSpecifier "render" "doRender")).
Proof.
  destruct (static_declaration_lookup
              {| importedTestingLibraryNode := aliased_import;
                 importedCustomModuleNode := VNull |}
              aliased_import
              [DefaultSpecifier "defaultExport";
               NamedSpecifier "screen" "screen";
               NamedSpecifier "render" "doRender"]
              "render" eq_refl eq_refl eq_refl)
    as (r & Hr & Hnamed & _).
  rewrite Hr. f_equal.
  destruct Hnamed as (local & -> & Hin).
  - exists "doRender". simpl. auto.
  - simpl in Hin.
    destruct Hin as [H|[H|[H|[]]]]; try discriminate H.
    injection H as <-. reflexivity.
Defined.

Lemma js_find_properties (specifierName : string)
    (properties : list (string * string)) :
  js_find (property_key_test specifierName)
    (map (fun p => Property_node (fst p) (snd p)) properties)
  = Ok (match find (fun p => fst p =? specifierName) properties with
        | Some p => Property_node (fst p) (snd p)
        | None => VUndefined
        end).
Proof.
  induction properties as [|[key local] l IH]; simpl; [reflexivity|].
  destruct (key =? specifierName); [reflexivity | exact IH].
Qed.

(** The lookup in a destructured [require], as a function of the
    pattern's properties. *)
Lemma findSpecifierIn_destructured (source : string)
    (properties : list (string * string)) (specifierName : string) :
  findSpecifierIn (destructured_require source properties) specifierName
  = match find (fun p => fst p =? specifierName) properties with
    | Some p => Ok (Identifier_node (fst p))
    | None => Throw TypeError
    end.
Proof.
  unfold findSpecifierIn, destructured_require. simpl.
  fold (property_key_test specifierName).
  rewrite js_find_properties. simpl.
  destruct (find _ properties) as [[key local]|]; reflexivity.
Qed.

(** With a matching property the lookup answers the key identifier. *)
Lemma destructured_lookup_found (source : string)
    (properties : list (string * string)) (specifierName : string) :
  (exists local, In (specifierName, local) properties) ->
  findSpecifierIn (destructured_require source properties) specifierName
  = Ok (Identifier_node specifierName).
Proof.
  intros [local Hin]. rewrite findSpecifierIn_destructured.
  destruct (find _ properties) as [[key l]|] eqn:E.
  - apply find_some in E as [_ Hk]. simpl in Hk.
    apply String.eqb_eq in Hk as ->. reflexivity.
  - pose proof (find_none _ _ E _ Hin) as H. simpl in H.
    rewrite String.eqb_refl in H. discriminate.
Qed.

(** Without one, [property] is [undefined] and reading its [key] is a
    [TypeError]. *)
Lemma destructured_lookup_missing (source : string)
    (properties : list (string * string)) (specifierName : string) :
  (forall local, ~ In (specifierName, local) properties) ->
  findSpecifierIn (destructured_require source properties) specifierName
  = Throw TypeError.
Proof.
  intros Hnone. rewrite findSpecifierIn_destructured.
  destruct (find _ properties) as [[key l]|] eqn:E; [|reflexivity].
  apply find_some in E as [Hin Hk]. simpl in Hk.
  apply String.eqb_eq in Hk as ->. exfalso. eapply Hnone, Hin.
Qed.

(** A [require] bound to a plain identifier answers that identifier for
    every symbol. *)
Lemma plain_require_lookup (source name specifierName : string) :
  findSpecifierIn (plain_require source name) specifierName
  = Ok (Identifier_node name).
Proof. reflexivity. Qed.

(** C5.  After [const { render: r } = require('@testing-library/react')]
    has been recorded, looking up [render] answers the key identifier
    [render] (not the alias [r]); looking up [screen], which the pattern
    does not bind, does not answer an absent value: it raises a
    [TypeError]. *)
Theorem destructured_lookup_missing_key_throws :
  traverse (context_with None "app.test.js")
    [VisitRequire (require_identifier render_require)] initialState
  = Ok render_require_state
  /\ findImportedUtilSpecifier render_require_state "render"
     = Ok (Identifier_node "render")
  /\ findImportedUtilSpecifier render_require_state "screen"
     = Throw TypeError.
Proof. repeat split. Qed.

(** C4.  With no custom module configured the setting reads as
    [undefined], which [endsWith] turns into the text ["undefined"]: a
    module whose source ends in [undefined] is recorded into the
    custom-module slot, by the declaration listener and by the
    [require] listener alike, and the specifier lookup then inspects
    that node instead of the Testing Library import. *)
Theorem custom_slot_recorded_without_setting :
  testing_library_module (settings (context_with None "app.test.js")) = None
  /\ traverse (context_with None "app.test.js")
       [VisitImportDeclaration undefined_import] initialState
     = Ok {| importedTestingLibraryNode := VNull;
             importedCustomModuleNode := undefined_import |}
  /\ traverse (context_with None "app.test.js")
       [VisitRequire (require_identifier undefined_require)] initialState
     = Ok {| importedTestingLibraryNode := VNull;
             importedCustomModuleNode := undefined_require |}
  /\ (exists st,
        traverse (context_with None "app.test.js")
          [VisitImportDeclaration react_import;
           VisitImportDeclaration undefined_import] initialState = Ok st
        /\ findImportedUtilSpecifier st "render" = Ok VUndefined
        /\ findSpecifierIn react_import "render"
           = Ok (specifier_node (NamedSpecifier "render" "render"))).
Proof.
  split; [reflexivity|]. split; [reflexivity|]. split; [reflexivity|].
  eexists. split; [reflexivity|]. split; reflexivity.
Qed.

(** When no custom module is configured, that is the only way into the
    custom-module slot. *)
Lemma custom_slot_needs_undefined_source (context : TestingLibraryContext)
    (node : value) (st st' : DetectionState) :
  customModule context = VUndefined ->
  ImportDeclaration context node st = Ok st' ->
  importedCustomModuleNode st' <> importedCustomModuleNode st ->
  exists source v,
    get node "source" = Ok source /\ get source "value" = Ok v /\
    endsWithb (ToString v) "undefined" = true.
Proof.
  intros Hcm. unfold ImportDeclaration. rewrite Hcm.
  destruct st as [tl cm]. simpl.
  destruct (truthy tl) eqn:Etl; destruct (truthy cm) eqn:Ecm; crunch;
    intros H; try discriminate H; inversion H; subst; simpl;
    intros Hne; try congruence; eauto.
Qed.

(** ** The matcher against the meaning of patterns *)

(** A match never moves backwards, and one that consumes nothing leaves
    the position as it was. *)
Lemma matches_suffix (r : regex) (bol : bool) (s : string) (bol' : bool)
    (s' : string) :
  matches r bol s bol' s' ->
  String.length s' <= String.length s /\
  (String.length s' = String.length s -> s' = s /\ bol' = bol).
Proof.
  induction 1; simpl;
    repeat match goal with
    | IH : _ /\ _ |- _ => destruct IH as [? ?]
    end;
    (split; [lia|]); intros Hlen; try lia; try (split; reflexivity);
    try (match goal with
         | Heq : String.length ?s1 = String.length ?s -> _ |- _ =>
             apply Heq; exact Hlen
         end).
  - match goal with
    | Heq : String.length s1 = String.length s -> _ |- _ =>
        destruct Heq as [-> ->]; [lia|]
    end.
    match goal with
    | Heq : String.length s2 = String.length _ -> _ |- _ => apply Heq; lia
    end.
  - match goal with
    | Heq : String.length s1 = String.length s -> _ |- _ =>
        destruct Heq as [-> ->]; [lia|]
    end.
    match goal with
    | Heq : String.length s2 = String.length _ -> _ |- _ => apply Heq; lia
    end.
Qed.

(** Soundness: whatever the matcher accepts is a match. *)
Lemma star_loop_sound (r : regex) m (k : bool -> string -> bool) (n : nat) :
  sound r m ->
  forall bol s,
    star_loop m k n bol s = true ->
    exists bol' s', matches (RStar r) bol s bol' s' /\ k bol' s' = true.
Proof.
  intros Hm. induction n as [|n IH]; simpl; intros bol s H.
  - rewrite orb_false_r in H. exists bol, s. split; [constructor | exact H].
  - apply orb_true_iff in H as [H|H].
    + exists bol, s. split; [constructor | exact H].
    + apply Hm in H as (bol1 & s1 & Hr & Hk).
      apply andb_true_iff in Hk as [_ Hk].
      apply IH in Hk as (bol2 & s2 & Hstar & Hk).
      exists bol2, s2. split; [|exact Hk].
      eapply m_star_more; eassumption.
Qed.

Lemma rmatch_sound (r : regex) : sound r (rmatch r).
Proof.
  induction r as [|c| |cs| | |r1 IH1 r2 IH2|r1 IH1 r2 IH2|r IH|r IH];
    intros bol s k H; simpl in H.
  - exists bol, s. split; [constructor | exact H].
  - destruct s as [|a s]; [discriminate|].
    apply andb_true_iff in H as [Ha Hk]. apply Ascii.eqb_eq in Ha as ->.
    exists false, s. split; [constructor | exact Hk].
  - destruct s as [|a s]; [discriminate|].
    apply andb_true_iff in H as [Ha Hk]. apply negb_true_iff in Ha.
    exists false, s. split; [constructor; exact Ha | exact Hk].
  - destruct s as [|a s]; [discriminate|].
    apply andb_true_iff in H as [Ha Hk].
    apply existsb_exists in Ha as (c & Hin & Hc). apply Ascii.eqb_eq in Hc as ->.
    exists false, s. split; [constructor; exact Hin | exact Hk].
  - apply andb_true_iff in H as [-> Hk].
    exists true, s. split; [constructor | exact Hk].
  - destruct s as [|a s]; [|discriminate].
    exists bol, "". split; [constructor | exact H].
  - apply IH1 in H as (bol1 & s1 & H1 & H).
    apply IH2 in H as (bol2 & s2 & H2 & Hk).
    exists bol2, s2. split; [econstructor; eassumption | exact Hk].
  - apply orb_true_iff in H as [H|H].
    + apply IH1 in H as (bol' & s' & H1 & Hk).
      exists bol', s'. split; [apply m_alt_l; exact H1 | exact Hk].
    + apply IH2 in H as (bol' & s' & H2 & Hk).
      exists bol', s'. split; [apply m_alt_r; exact H2 | exact Hk].
  - eapply star_loop_sound; eassumption.
  - apply orb_true_iff in H as [H|H].
    + apply IH in H as (bol' & s' & H1 & Hk).
      exists bol', s'. split; [apply m_opt_some; exact H1 | exact Hk].
    + exists bol, s. split; [apply m_opt_none | exact H].
Qed.

(** Monotonicity in the continuation. *)
Lemma star_loop_monotone m (n : nat) :
  monotone m ->
  forall bol s (k1 k2 : bool -> string -> bool),
    (forall bol' s', k1 bol' s' = true -> k2 bol' s' = true) ->
    star_loop m k1 n bol s = true -> star_loop m k2 n bol s = true.
Proof.
  intros Hm. induction n as [|n IH]; simpl; intros bol s k1 k2 Hk H.
  - rewrite orb_false_r in *. auto.
  - apply orb_true_iff in H as [H|H]; apply orb_true_iff; [left; auto|right].
    revert H. apply Hm. intros bol' s' H.
    apply andb_true_iff in H as [Hlt H]. rewrite Hlt. simpl.
    eapply IH; eassumption.
Qed.

Lemma rmatch_monotone (r : regex) : monotone (rmatch r).
Proof.
  induction r as [|c| |cs| | |r1 IH1 r2 IH2|r1 IH1 r2 IH2|r IH|r IH];
    intros bol s k1 k2 Hk H; simpl in *.
  - auto.
  - destruct s; [discriminate|].
    apply andb_true_iff in H as [-> H]. simpl. auto.
  - destruct s; [discriminate|].
    apply andb_true_iff in H as [-> H]. simpl. auto.
  - destruct s; [discriminate|].
    apply andb_true_iff in H as [-> H]. simpl. auto.
  - apply andb_true_iff in H as [-> H]. simpl. auto.
  - destruct s; [auto | discriminate].
  - revert H. apply IH1. intros bol' s'. apply IH2. exact Hk.
  - apply orb_true_iff in H as [H|H]; apply orb_true_iff;
      [left; eapply IH1 | right; eapply IH2]; eassumption.
  - eapply star_loop_monotone; eassumption.
  - apply orb_true_iff in H as [H|H]; apply orb_true_iff;
      [left; eapply IH; eassumption | right; auto].
Qed.

(** More rounds than needed do no harm. *)
Lemma star_loop_fuel m (k : bool -> string -> bool) (n : nat) :
  monotone m ->
  forall n' bol s,
    n <= n' -> star_loop m k n bol s = true -> star_loop m k n' bol s = true.
Proof.
  intros Hm. induction n as [|n IH]; intros n' bol s Hle H.
  - simpl in H. rewrite orb_false_r in H.
    destruct n'; simpl; rewrite H; reflexivity.
  - destruct n' as [|n']; [lia|]. simpl in *.
    apply orb_true_iff in H as [H|H]; apply orb_true_iff; [left; auto|right].
    revert H. apply Hm. intros bol' s' H.
    apply andb_true_iff in H as [Hlt H]. rewrite Hlt. simpl.
    apply IH; [lia | exact H].
Qed.

(** Completeness: the matcher finds every match. *)
Lemma rmatch_complete (r : regex) (bol : bool) (s : string) (bol' : bool)
    (s' : string) :
  matches r bol s bol' s' ->
  forall k, k bol' s' = true -> rmatch r bol s k = true.
Proof.
  induction 1; intros k Hk; simpl.
  - exact Hk.
  - rewrite Ascii.eqb_refl. exact Hk.
  - rewrite H. exact Hk.
  - replace (existsb (Ascii.eqb a) cs) with true; [exact Hk|].
    symmetry. apply existsb_exists. exists a.
    split; [assumption | apply Ascii.eqb_refl].
  - exact Hk.
  - exact Hk.
  - apply IHmatches1. apply IHmatches2. exact Hk.
  - rewrite IHmatches; [reflexivity | exact Hk].
  - rewrite (IHmatches k Hk). apply orb_true_r.
  - destruct (String.length s); simpl; rewrite Hk; reflexivity.
  - destruct (matches_suffix _ _ _ _ _ H) as [Hle Heq].
    destruct (Nat.eq_dec (String.length s1) (String.length s)) as [E|E].
    + destruct (Heq E) as [-> ->]. apply (IHmatches2 k Hk).
    + destruct (String.length s) as [|n] eqn:En; [lia|]. simpl.
      apply orb_true_iff. right. apply IHmatches1.
      apply andb_true_iff. split.
      * apply Nat.ltb_lt. lia.
      * apply (star_loop_fuel _ _ (String.length s1));
          [apply rmatch_monotone | lia | apply (IHmatches2 k Hk)].
  - rewrite (IHmatches k Hk). reflexivity.
  - rewrite Hk. apply orb_true_r.
Qed.

Lemma match_here_spec (r : regex) (bol : bool) (s : string) :
  match_here r bol s = true <-> exists bol' s', matches r bol s bol' s'.
Proof.
  unfold match_here. split.
  - intros H. apply rmatch_sound in H as (bol' & s' & H & _). eauto.
  - intros (bol' & s' & H). eapply rmatch_complete; [exact H | reflexivity].
Qed.

Lemma search_from_spec (r : regex) (s : string) :
  forall bol,
    search_from r bol s = true <->
    exists before rest bol' s',
      s = before +:+ rest /\
      matches r (bol && (before =? "")) rest bol' s'.
Proof.
  induction s as [|a s IH]; intros bol; simpl.
  - rewrite orb_false_r, match_here_spec. split.
    + intros (bol' & s' & H). exists "", "", bol', s'.
      rewrite andb_true_r. auto.
    + intros (before & rest & bol' & s' & Hs & H).
      destruct before; [|discriminate].
      change ("" +:+ rest) with rest in Hs. subst rest.
      rewrite andb_true_r in H. eauto.
  - rewrite orb_true_iff, match_here_spec, IH. split.
    + intros [(bol' & s' & H)|(before & rest & bol' & s' & -> & H)].
      * exists "", (String a s), bol', s'. rewrite andb_true_r. auto.
      * exists (String a before), rest, bol', s'.
        rewrite andb_false_r. simpl in H. auto.
    + intros (before & rest & bol' & s' & Hs & H).
      destruct before as [|b before].
      * change ("" +:+ rest) with rest in Hs. subst rest.
        rewrite andb_true_r in H. left. eauto.
      * change (String b before +:+ rest)
          with (String b (before +:+ rest)) in Hs.
        injection Hs as -> ->. rewrite andb_false_r in H.
        right. exists before, rest, bol', s'. auto.
Qed.

(** The search succeeds exactly when the pattern matches somewhere. *)
Lemma regex_search_spec (r : regex) (subject : string) :
  regex_search r subject = true <-> matches_somewhere r subject.
Proof.
  unfold regex_search, matches_somewhere. rewrite search_from_spec.
  reflexivity.
Qed.

Lemma DEFAULT_FILENAME_PATTERN_compiled :
  RegExp DEFAULT_FILENAME_PATTERN_source = Some DEFAULT_FILENAME_PATTERN.
Proof. reflexivity. Qed.

(** C8.  With no pattern configured the helper uses the default
    pattern (the compilation of its source text), which accepts
    [component.test.tsx] and rejects [component.tsx]; and whatever the
    pattern, the filename is accepted exactly when the pattern matches
    somewhere in it, at any start position. *)
Theorem filename_gate :
  (forall module fileName,
     filenamePattern (context_with module fileName) = DEFAULT_FILENAME_PATTERN)
  /\ RegExp DEFAULT_FILENAME_PATTERN_source = Some DEFAULT_FILENAME_PATTERN
  /\ getIsValidFilename (context_with None "component.test.tsx") = true
  /\ getIsValidFilename (context_with None "component.tsx") = false
  /\ (forall module pattern fileName,
        getIsValidFilename
          {| settings := {| testing_library_module := module;
                            testing_library_filename_pattern := Some pattern |};
             getFilename := fileName |} = true <->
        matches_somewhere pattern fileName)
  /\ (forall context,
        getIsValidFilename context = true <->
        matches_somewhere (filenamePattern context) (getFilename context)).
Proof.
  split; [reflexivity|]. split; [reflexivity|].
  split; [reflexivity|]. split; [reflexivity|].
  split; [intros module pattern fileName | intros context];
    apply regex_search_spec.
Qed.

(** ** The merged listeners *)

Section EnhanceProperties.
Context {RuleState : Type}.
Variable context : TestingLibraryContext.
Variable ruleInstructions : gmap string (@RuleListener RuleState).

(** [Object.keys] lists the domain. *)
Lemma elem_of_object_keys {A} (m : gmap string A) (k : string) :
  k ∈ object_keys m <-> k ∈ dom m.
Proof.
  unfold object_keys. rewrite elem_of_dom, list_elem_of_fmap. split.
  - intros ([k' v] & -> & Hin). apply elem_of_map_to_list in Hin. eauto.
  - intros [v Hv]. exists (k, v). split; [reflexivity|].
    apply elem_of_map_to_list. exact Hv.
Qed.

Lemma allKeys_union :
  allKeys context ruleInstructions
  = dom (detectionInstructions context) ∪ dom ruleInstructions.
Proof.
  unfold allKeys. apply set_eq. intros k.
  rewrite elem_of_list_to_set, elem_of_app, elem_of_union,
    !elem_of_object_keys.
  reflexivity.
Qed.

(** The loop over [allKeys] stores the merged listener of each key
  under that key and nothing else. *)
Lemma enhancedRuleInstructions_lookup (instruction : string) :
  (instruction ∈ allKeys context ruleInstructions ->
   enhancedRuleInstructions context ruleInstructions !! instruction
   = Some (enhancedListener context ruleInstructions instruction))
  /\ (instruction ∉ allKeys context ruleInstructions ->
      enhancedRuleInstructions context ruleInstructions !! instruction
      = None).
Proof.
  unfold enhancedRuleInstructions.
  apply (set_fold_ind_L
           (fun (m : gmap string EnhancedListener) (X : gset string) =>
              (instruction ∈ X ->
               m !! instruction
               = Some (enhancedListener context ruleInstructions
                         instruction))
              /\ (instruction ∉ X -> m !! instruction = None))).
  - split; [intros Hin; exfalso; revert Hin; apply not_elem_of_empty
           | intros _; apply lookup_empty].
  - intros k X m Hk [IHin IHout].
    destruct (decide (k = instruction)) as [->|Hne].
    + rewrite lookup_insert_eq.
      split; [reflexivity|].
      intros Hout. exfalso. apply Hout, elem_of_union_l, elem_of_singleton.
      reflexivity.
    + rewrite lookup_insert_ne by exact Hne. split.
      * intros Hmem. apply IHin.
        apply elem_of_union in Hmem as [Hk'|Hx]; [|exact Hx].
        apply elem_of_singleton in Hk'. congruence.
      * intros Hnot. apply IHout.
        intros Hx. apply Hnot, elem_of_union_r, Hx.
Qed.


End EnhanceProperties.

Lemma detectionInstructions_import (context : TestingLibraryContext) :
  detectionInstructions context !! IMPORT_SELECTOR
  = Some (ImportDeclaration context).
Proof. unfold detectionInstructions. apply lookup_insert_eq. Qed.

Lemma detectionInstructions_require (context : TestingLibraryContext) :
  detectionInstructions context !! REQUIRE_SELECTOR
  = Some (RequireCall context).
Proof.
  unfold detectionInstructions.
  rewrite lookup_insert_ne by discriminate. apply lookup_insert_eq.
Qed.


(** ** The spec's examples *)

(** With [my-test-utils] configured, [from '../my-test-utils'] fills the
    custom-module slot; [from 'other-lib'] fills nothing and the import
    check stays false. *)
Example custom_module_example :
  traverse (context_with (Some "my-test-utils") "app.test.js")
    [VisitImportDeclaration my_test_utils_import] initialState
  = Ok my_test_utils_state
  /\ traverse (context_with (Some "my-test-utils") "app.test.js")
       [VisitImportDeclaration
          (ImportDeclaration_node [DefaultSpecifier "x"] "other-lib")]
       initialState
     = Ok initialState
  /\ getIsTestingLibraryImported
       (context_with (Some "my-test-utils") "app.test.js") initialState
     = false.
Proof. repeat split. Qed.

(** [import * as rtl from '@testing-library/react'] resolves [render]
    to the namespace specifier. *)
Example namespace_example :
  findImportedUtilSpecifier
    {| importedTestingLibraryNode :=
         ImportDeclaration_node [NamespaceSpecifier "rtl"]
                                "@testing-library/react";
       importedCustomModuleNode := VNull |} "render"
  = Ok (specifier_node (NamespaceSpecifier "rtl")).
Proof. reflexivity. Qed.

(** The same import in [x.test.ts] opens the gate, in [x.ts] it does
    not; and an import of something else keeps the gate closed when a
    custom module is configured. *)
Example end_to_end_example :
  (exists st,
     traverse (context_with None "x.test.ts")
       [VisitImportDeclaration react_import] initialState = Ok st
     /\ canReportErrors (context_with None "x.test.ts") st = true
     /\ canReportErrors (context_with None "x.ts") st = false)
  /\ (exists st,
        traverse (context_with (Some "my-test-utils") "x.test.ts")
          [VisitImportDeclaration
             (ImportDeclaration_node [NamedSpecifier "render" "render"]
                                     "something-else")]
          initialState = Ok st
        /\ canReportErrors (context_with (Some "my-test-utils") "x.test.ts") st
           = false).
Proof. split; eexists; repeat split. Qed.

(** * Further properties *)

(** ** The string searches *)


Lemma append_cons_l (a : ascii) (s t : string) :
  String a s +:+ t = String a (s +:+ t).
Proof. reflexivity. Qed.

Lemma prefixb_spec (p s : string) :
  prefixb p s = true <-> exists rest, s = p +:+ rest.
Proof.
  revert s. induction p as [|a p IH]; intros s; simpl.
  - split; [intros _; exists s; reflexivity | reflexivity].
  - destruct s as [|b s].
    + split; [discriminate | intros [rest H]; discriminate H].
    + rewrite andb_true_iff, Ascii.eqb_eq, IH. split.
      * intros [-> [rest ->]]. exists rest. reflexivity.
      * intros [rest H]. rewrite append_cons_l in H.
        injection H as -> ->. eauto.
Qed.

Lemma containsb_spec (p s : string) :
  containsb p s = true <-> exists before after, s = before +:+ p +:+ after.
Proof.
  induction s as [|a s IH]; simpl.
  - rewrite orb_false_r, prefixb_spec. split.
    + intros [rest H]. exists "", rest. exact H.
    + intros (before & after & H).
      destruct before; [|discriminate H]. eauto.
  - rewrite orb_true_iff, prefixb_spec, IH. split.
    + intros [[rest H]|(before & after & ->)].
      * exists "", rest. exact H.
      * exists (String a before), after. reflexivity.
    + intros (before & after & H). destruct before as [|b before].
      * left. eauto.
      * right. rewrite append_cons_l in H. injection H as -> ->. eauto.
Qed.

Lemma endsWithb_unfold (s p : string) :
  endsWithb s p
  = ((s =? p) ||
     match s with
     | EmptyString => false
     | String _ s' => endsWithb s' p
     end)%bool.
Proof. destruct s; reflexivity. Qed.

Lemma endsWithb_spec (s p : string) :
  endsWithb s p = true <-> exists before, s = before +:+ p.
Proof.
  induction s as [|a s IH]; rewrite endsWithb_unfold.
  - rewrite orb_false_r, String.eqb_eq. split.
    + intros <-. exists "". reflexivity.
    + intros [before H]. destruct before; [exact H | discriminate H].
  - rewrite orb_true_iff, String.eqb_eq, IH. split.
    + intros [<-|[before ->]].
      * exists "". reflexivity.
      * exists (String a before). reflexivity.
    + intros [before H]. destruct before as [|b before].
      * left. exact H.
      * right. rewrite append_cons_l in H. injection H as -> ->. eauto.
Qed.

(** ** More on the parent-chain ascents *)

Lemma get_not_nullish (node : value) (k : string) :
  nullish node = false -> exists v, get node k = Ok v.
Proof. destruct node; simpl; try discriminate; eauto. Qed.

Lemma truthy_not_nullish (v : value) : truthy v = true -> nullish v = false.
Proof. destruct v; simpl; congruence. Qed.

Lemma isCallExpression_truthy (node b : value) :
  isCallExpression node = Ok b -> (truthy b = true <-> is_call node).
Proof.
  intros Hb.
  destruct (guarded_type_is_spec node "CallExpression") as (r & Hr & Hiff).
  unfold isCallExpression, AST_NODE_TYPES.CallExpression in Hb.
  rewrite Hr in Hb. injection Hb as <-. exact Hiff.
Qed.

Lemma on_parent_chain_root (node parent a : value) :
  get node "parent" = Ok parent -> truthy parent = false ->
  on_parent_chain node a -> a = node.
Proof.
  intros Hp Hf Hchain. destruct Hchain as [|node p a Hp' Ht _]; [reflexivity|].
  congruence.
Qed.

Lemma on_parent_chain_step (node parent a : value) :
  get node "parent" = Ok parent ->
  on_parent_chain node a -> a = node \/ on_parent_chain parent a.
Proof.
  intros Hp Hchain. destruct Hchain as [|node p a Hp' Ht Hrest]; [auto|].
  right. congruence.
Qed.

Lemma on_parent_chain_trans (a b c : value) :
  on_parent_chain a b -> on_parent_chain b c -> on_parent_chain a c.
Proof.
  induction 1; [auto|]. intros Hc. eapply chain_parent; eauto.
Qed.

Lemma nearest_on_chain (P : value -> Prop) (node r : value) :
  nearest P node r -> on_parent_chain node r /\ P r.
Proof.
  induction 1 as [node HP|node parent r HnP Hp Ht _ [IHc IHP]].
  - split; [constructor | exact HP].
  - split; [eapply chain_parent; eassumption | exact IHP].
Qed.

(** Nothing below the nearest one satisfies [P]. *)
Lemma nearest_first (P : value -> Prop) (node r : value) :
  nearest P node r ->
  forall a, on_parent_chain node a -> P a -> on_parent_chain r a.
Proof.
  induction 1 as [node HP|node parent r HnP Hp Ht _ IH]; intros a Hchain Ha.
  - exact Hchain.
  - destruct (on_parent_chain_step _ _ _ Hp Hchain) as [->|Hrest];
      [contradiction | auto].
Qed.

Lemma findClosestCallExpressionNode_cases (node : value) :
  nullish node = false ->
  exists r,
    findClosestCallExpressionNode node = Ok r /\
    ((r = VNull /\ forall a, on_parent_chain node a -> ~ is_call a) \/
     nearest is_call node r).
Proof.
  intros Hnn. funelim (findClosestCallExpressionNode node).
  - destruct (guarded_type_is_spec node "CallExpression") as (r & Hr & _).
    unfold isCallExpression, AST_NODE_TYPES.CallExpression in Heq. congruence.
  - exists node. split; [reflexivity|]. right. apply nearest_here.
    apply (isCallExpression_truthy _ _ Heq0). exact Heq.
  - destruct (get_not_nullish node "parent" Hnn) as [p Hp]. congruence.
  - assert (Hnot : ~ is_call node).
    { intros Hc. apply (isCallExpression_truthy _ _ Heq0) in Hc. congruence. }
    destruct (H parent (truthy_not_nullish _ Htruthy) eq_refl eq_refl)
      as (r & Hr & Hcases).
    exists r. split; [exact Hr|].
    destruct Hcases as [[-> Hnone]|Hnear].
    + left. split; [reflexivity|]. intros a Hchain.
      destruct (on_parent_chain_step _ _ _ Hparent Hchain) as [->|Hrest];
        [exact Hnot | auto].
    + right. eapply nearest_above; eassumption.
  - assert (Hnot : ~ is_call node).
    { intros Hc. apply (isCallExpression_truthy _ _ Heq0) in Hc. congruence. }
    exists VNull. split; [reflexivity|]. left. split; [reflexivity|].
    intros a Hchain.
    rewrite (on_parent_chain_root _ _ _ Hparent e Hchain). exact Hnot.
Qed.

(** X1.  Started on a node (anything but [undefined] and [null]),
    [findClosestCallExpressionNode] returns without a fault, and what it
    returns is the first call expression met when going from the node
    up its parent links, the node itself included; it returns [null]
    exactly when neither the node nor any of the ancestors reached
    through the parent links is a call expression. *)
Theorem findClosestCallExpressionNode_nearest (node : value) :
  nullish node = false ->
  exists r,
    findClosestCallExpressionNode node = Ok r /\
    ((r = VNull /\ forall a, on_parent_chain node a -> ~ is_call a) \/
     nearest is_call node r).
Proof. exact (findClosestCallExpressionNode_cases node). Qed.

Lemma named_call_test_spec (node : value) (name : string) :
  exists c, named_call_test node name = Ok c /\
            (truthy c = true <-> is_call_to name node).
Proof.
  unfold named_call_test, is_call_to.
  destruct (guarded_type_is_spec node "CallExpression") as (b & Hb & Hiff).
  unfold isCallExpression, AST_NODE_TYPES.CallExpression. rewrite Hb.
  change (bind (Ok ?v) ?f) with (f v). cbv beta. unfold js_and at 1.
  destruct (truthy b) eqn:E.
  2:{ exists b. split; [reflexivity|]. rewrite E. split; [discriminate|].
      intros [Hty _]. apply Hiff in Hty. discriminate. }
  pose proof (proj1 Hiff eq_refl) as Hty.
  destruct (node_type_object _ _ Hty) as [fs ->]. rewrite get_object.
  change (bind (Ok ?v) ?f) with (f v). cbv beta.
  destruct (guarded_type_is_spec (lookup_field "callee" fs) "Identifier")
    as (b' & Hb' & Hiff').
  unfold isIdentifier, AST_NODE_TYPES.Identifier. rewrite Hb'.
  change (bind (Ok ?v) ?f) with (f v). cbv beta. unfold js_and.
  destruct (truthy b') eqn:E'.
  2:{ exists b'. split; [reflexivity|]. rewrite E'. split; [discriminate|].
      intros (_ & callee & [= <-] & Hc & _). apply Hiff' in Hc. discriminate. }
  pose proof (proj1 Hiff' eq_refl) as Hcty.
  destruct (node_type_object _ _ Hcty) as [cfs Hcfs].
  rewrite Hcfs. rewrite get_object.
  change (bind (Ok ?v) ?f) with (f v). cbv beta.
  eexists. split; [reflexivity|]. rewrite strict_eq_str_truthy. split.
  - intros Hname. split; [exact Hty|].
    exists (VObj cfs). rewrite <- Hcfs.
    repeat split; [exact Hcty|]. rewrite Hcfs, get_object, Hname. reflexivity.
  - intros (_ & callee & Hcallee & _ & Hname).
    injection Hcallee as <-. rewrite get_object in Hname. congruence.
Qed.

Lemma findClosestCallNode_cases (node : value) (name : string) :
  nullish node = false ->
  exists r,
    findClosestCallNode node name = Ok r /\
    ((r = VNull /\
      forall a, on_parent_chain node a ->
                ~ (is_call_to name a /\ has_parent a)) \/
     nearest (fun a => is_call_to name a /\ has_parent a) node r).
Proof.
  intros Hnn. funelim (findClosestCallNode node name).
  all: fold (named_call_test node name) in *.
  - destruct (get_not_nullish node "parent" Hnn) as [p Hp]. congruence.
  - exists VNull. split; [reflexivity|]. left. split; [reflexivity|].
    intros a Hchain [_ (p & Hp & Ht)].
    rewrite (on_parent_chain_root _ _ _ Hparent e Hchain) in Hp. congruence.
  - destruct (named_call_test_spec node name) as (c & Hc & _). congruence.
  - exists node. split; [reflexivity|]. right. apply nearest_here.
    destruct (named_call_test_spec node name) as (c' & Hc & Hiff).
    split; [apply Hiff; congruence | exists parent; auto].
  - assert (Hnot : ~ (is_call_to name node /\ has_parent node)).
    { intros [Hc _].
      destruct (named_call_test_spec node name) as (c' & Hc' & Hiff).
      apply Hiff in Hc. congruence. }
    destruct (H parent name (truthy_not_nullish _ Htruthy) eq_refl eq_refl)
      as (r & Hr & Hcases).
    exists r. split; [exact Hr|].
    destruct Hcases as [[-> Hnone]|Hnear].
    + left. split; [reflexivity|]. intros a Hchain.
      destruct (on_parent_chain_step _ _ _ Hparent Hchain) as [->|Hrest];
        [exact Hnot | auto].
    + right. eapply nearest_above; eassumption.
Qed.

(** X2.  Started on a node, [findClosestCallNode] returns without a
    fault the first node, going up the parent links from the node
    itself, that is a call [name(...)] (a call expression whose callee
    is the identifier [name]) and that has a parent of its own; it
    returns [null] exactly when no node on the way up is such a call. *)
Theorem findClosestCallNode_nearest (node : value) (name : string) :
  nullish node = false ->
  exists r,
    findClosestCallNode node name = Ok r /\
    ((r = VNull /\
      forall a, on_parent_chain node a ->
                ~ (is_call_to name a /\ has_parent a)) \/
     nearest (fun a => is_call_to name a /\ has_parent a) node r).
Proof. exact (findClosestCallNode_cases node name). Qed.

(** X3.  The two ascents agree: whenever [findClosestCallNode] finds
    a call from a node, [findClosestCallExpressionNode] started on the
    same node finds a call expression too, and that one lies on the
    way from the node to the named call (it is the named call or a
    call expression below it). *)
Theorem named_call_implies_call (node : value) (name : string) (r : value) :
  findClosestCallNode node name = Ok r -> r <> VNull ->
  exists r' : value,
    findClosestCallExpressionNode node = Ok r' /\
    is_call r' /\ on_parent_chain node r' /\ on_parent_chain r' r.
Proof.
  intros Hr Hne.
  assert (Hnn : nullish node = false).
  { destruct node; try reflexivity; simp findClosestCallNode in Hr;
      discriminate Hr. }
  destruct (findClosestCallNode_cases node name Hnn) as (r0 & Hr0 & Hcases).
  assert (r0 = r) by congruence. subst r0.
  destruct Hcases as [[-> _]|Hnear]; [contradiction|].
  destruct (nearest_on_chain _ _ _ Hnear) as [Hchain [[Hcall _] _]].
  destruct (findClosestCallExpressionNode_cases node Hnn)
    as (r' & Hr' & [[_ Hnone]|Hnear']).
  - exfalso. exact (Hnone r Hchain Hcall).
  - destruct (nearest_on_chain _ _ _ Hnear') as [Hchain' Hcall'].
    exists r'. repeat split; try assumption.
    exact (nearest_first _ _ _ Hnear' r Hchain Hcall).
Qed.

(** [require('lib')] bound by [const x = ...], seen from the [require]
    identifier. *)
Lemma findClosestCallExpressionNode_nearest_witness :
  nullish (require_identifier (plain_require "lib" "x")) = false /\
  exists r,
    findClosestCallExpressionNode (require_identifier (plain_require "lib" "x"))
    = Ok r /\
    ((r = VNull /\
      forall a, on_parent_chain (require_identifier (plain_require "lib" "x")) a
                -> ~ is_call a) \/
     nearest is_call (require_identifier (plain_require "lib" "x")) r).
Proof.
  split; [reflexivity|].
  apply findClosestCallExpressionNode_nearest. reflexivity.
Defined.

Lemma findClosestCallNode_nearest_witness :
  nullish (require_identifier (plain_require "lib" "x")) = false /\
  exists r,
    findClosestCallNode (require_identifier (plain_require "lib" "x"))
      "require" = Ok r /\
    ((r = VNull /\
      forall a, on_parent_chain (require_identifier (plain_require "lib" "x")) a
                -> ~ (is_call_to "require" a /\ has_parent a)) \/
     nearest (fun a => is_call_to "require" a /\ has_parent a)
       (require_identifier (plain_require "lib" "x")) r).
Proof.
  split; [reflexivity|].
  apply findClosestCallNode_nearest. reflexivity.
Defined.

Lemma named_call_implies_call_witness :
  findClosestCallNode (require_identifier (plain_require "lib" "x")) "require"
  = Ok (plain_require "lib" "x") /\
  exists r' : value,
    findClosestCallExpressionNode (require_identifier (plain_require "lib" "x"))
    = Ok r' /\
    is_call r' /\
    on_parent_chain (require_identifier (plain_require "lib" "x")) r' /\
    on_parent_chain r' (plain_require "lib" "x").
Proof.
  assert (H : findClosestCallNode
                (require_identifier (plain_require "lib" "x")) "require"
              = Ok (plain_require "lib" "x")) by reflexivity.
  split; [exact H|].
  apply (named_call_implies_call _ "require" _ H). discriminate.
Defined.

(** ** Composite predicates, exactly *)

Lemma identifier_name_test_spec (id : value) (s : string) :
  exists r,
    (let* b' := isIdentifier id in
     b' &&> (let* n := get id "name" in Ok (strict_eq_str n s))) = Ok r /\
    (truthy r = true <-> identifier_named s id).
Proof.
  unfold identifier_named.
  destruct (guarded_type_is_spec id "Identifier") as (b & Hb & Hiff).
  unfold isIdentifier, AST_NODE_TYPES.Identifier. rewrite Hb.
  change (bind (Ok ?v) ?f) with (f v). cbv beta. unfold js_and.
  destruct (truthy b) eqn:E.
  - pose proof (proj1 Hiff eq_refl) as Hty.
    destruct (node_type_object _ _ Hty) as [fs Hfs]. subst id.
    rewrite get_object. change (bind (Ok ?v) ?f) with (f v). cbv beta.
    eexists. split; [reflexivity|]. rewrite strict_eq_str_truthy.
    split; [intros ->; auto | intros [_ [= ->]]; reflexivity].
  - exists b. split; [reflexivity|]. rewrite E. split; [discriminate|].
    intros [Hty _]. apply Hiff in Hty. discriminate.
Qed.

Lemma member_name_test_spec (v : value) (s : string) :
  exists r,
    (let* b := isMemberExpression v in
     b &&> (let* property := get v "property" in
            let* b' := isIdentifier property in
            b' &&> (let* n := get property "name" in
                    Ok (strict_eq_str n s)))) = Ok r /\
    (truthy r = true <-> member_access_named s v).
Proof.
  unfold member_access_named.
  destruct (guarded_type_is_spec v "MemberExpression") as (b & Hb & Hiff).
  unfold isMemberExpression, AST_NODE_TYPES.MemberExpression. rewrite Hb.
  change (bind (Ok ?x) ?f) with (f x). cbv beta. unfold js_and at 1.
  destruct (truthy b) eqn:E.
  - pose proof (proj1 Hiff eq_refl) as Hty.
    destruct (node_type_object _ _ Hty) as [fs Hfs]. subst v.
    rewrite get_object. change (bind (Ok ?x) ?f) with (f x). cbv beta.
    destruct (identifier_name_test_spec (lookup_field "property" fs) s)
      as (r & Hr & Hiff').
    exists r. split; [exact Hr|]. rewrite Hiff'. split.
    + intros Hid. split; [exact Hty|]. eauto.
    + intros (_ & property & [= <-] & Hid). exact Hid.
  - exists b. split; [reflexivity|]. rewrite E. split; [discriminate|].
    intros [Hty _]. apply Hiff in Hty. discriminate.
Qed.

Lemma hasThenProperty_cases (node : value) :
  exists r, hasThenProperty node = Ok r /\
            (truthy r = true <-> member_access_named "then" node).
Proof. apply member_name_test_spec. Qed.

(** X4.  [hasThenProperty] answers on every value, and answers truthy
    exactly on a member access whose property is the identifier
    [then]. *)
Theorem hasThenProperty_exact (node : value) :
  exists r, hasThenProperty node = Ok r /\
            (truthy r = true <-> member_access_named "then" node).
Proof. apply member_name_test_spec. Qed.

(** X5.  [isAwaited] answers on every value, and answers truthy exactly
    on the nodes tagged [AwaitExpression], [ArrowFunctionExpression] or
    [ReturnStatement]. *)
Theorem isAwaited_exact (node : value) :
  exists r, isAwaited node = Ok r /\
            (truthy r = true <->
             node_type node = Some "AwaitExpression" \/
             node_type node = Some "ArrowFunctionExpression" \/
             node_type node = Some "ReturnStatement").
Proof.
  unfold isAwaited, isAwaitExpression, isArrowFunctionExpression,
    isReturnStatement, AST_NODE_TYPES.AwaitExpression,
    AST_NODE_TYPES.ArrowFunctionExpression, AST_NODE_TYPES.ReturnStatement.
  destruct (guarded_type_is_spec node "AwaitExpression") as (a & -> & Ha).
  destruct (guarded_type_is_spec node "ArrowFunctionExpression")
    as (b & -> & Hb).
  destruct (guarded_type_is_spec node "ReturnStatement") as (c & -> & Hc).
  change (bind (Ok ?v) ?f) with (f v). cbv beta. unfold js_or at 1.
  destruct (truthy a) eqn:Ea.
  { exists a. split; [reflexivity|]. rewrite Ea.
    split; [intros _; left; apply Ha; reflexivity | reflexivity]. }
  change (bind (Ok ?v) ?f) with (f v). cbv beta. unfold js_or.
  destruct (truthy b) eqn:Eb.
  { exists b. split; [reflexivity|]. rewrite Eb.
    split; [intros _; right; left; apply Hb; reflexivity | reflexivity]. }
  exists c. split; [reflexivity|]. rewrite Hc. split; [auto|].
  intros [H|[H|H]]; [apply Ha in H | apply Hb in H | exact H]; discriminate.
Qed.

Lemma js_some_exact {A} (p : A -> result value) (Q : A -> Prop) (l : list A) :
  (forall x, exists r, p x = Ok r /\ (truthy r = true <-> Q x)) ->
  exists b, js_some p l = Ok (VBool b) /\
            (b = true <-> exists x, In x l /\ Q x).
Proof.
  intros Hp. induction l as [|x l (b & IH & IHiff)]; simpl.
  - exists false. split; [reflexivity|]. split; [discriminate|].
    intros (x & [] & _).
  - destruct (Hp x) as (r & Hr & Hiff). rewrite Hr. simpl.
    destruct (truthy r) eqn:E.
    + exists true. split; [reflexivity|]. split; [|reflexivity].
      intros _. exists x. split; [auto | apply Hiff; reflexivity].
    + exists b. split; [exact IH|]. rewrite IHiff. split.
      * intros (y & Hin & Hy). eauto.
      * intros (y & [->|Hin] & Hy); [|eauto].
        apply Hiff in Hy. discriminate.
Qed.

(** X6.  On a call node, [isRenderFunction] answers [true] or [false]
    without a fault, and [true] exactly when one of the given names is
    the name of the callee, the callee being an identifier, or the name
    of the callee's property, the callee being a member access with an
    identifier as property. *)
Theorem isRenderFunction_exact (fs : list (string * value))
    (renderFunctions : list string) :
  exists b,
    isRenderFunction (VObj fs) renderFunctions = Ok (VBool b) /\
    (b = true <->
     exists name,
       In name renderFunctions /\
       (identifier_named name (lookup_field "callee" fs) \/
        member_access_named name (lookup_field "callee" fs))).
Proof.
  unfold isRenderFunction. apply js_some_exact. intros name.
  rewrite get_object. change (bind (Ok ?v) ?f) with (f v). cbv beta.
  destruct (identifier_name_test_spec (lookup_field "callee" fs) name)
    as (r1 & Hr1 & Hiff1).
  rewrite Hr1. change (bind (Ok ?v) ?f) with (f v). cbv beta.
  unfold js_or. destruct (truthy r1) eqn:E1.
  - exists r1. split; [reflexivity|]. rewrite E1. split; [|reflexivity].
    intros _. left. apply Hiff1. reflexivity.
  - destruct (member_name_test_spec (lookup_field "callee" fs) name)
      as (r2 & Hr2 & Hiff2).
    exists r2. split; [exact Hr2|]. rewrite Hiff2. split; [auto|].
    intros [Hid|Hm]; [|exact Hm]. apply Hiff1 in Hid. discriminate.
Qed.

(** X7.  On a node, [isPromiseResolved] answers without a fault, and
    truthy exactly when: the parent is a call expression and the
    parent's parent is a member access [_.then]; or the parent is not a
    call expression and is itself a member access [_.then]. *)
Theorem isPromiseResolved_exact (fs : list (string * value)) :
  exists r,
    isPromiseResolved (VObj fs) = Ok r /\
    (truthy r = true <->
     (is_call (lookup_field "parent" fs) /\
      exists grandparent,
        get (lookup_field "parent" fs) "parent" = Ok grandparent /\
        member_access_named "then" grandparent) \/
     (~ is_call (lookup_field "parent" fs) /\
      member_access_named "then" (lookup_field "parent" fs))).
Proof.
  unfold isPromiseResolved. rewrite get_object.
  change (bind (Ok ?v) ?f) with (f v). cbv beta.
  destruct (guarded_type_is_spec (lookup_field "parent" fs) "CallExpression")
    as (b & Hb & Hiff).
  unfold isCallExpression, AST_NODE_TYPES.CallExpression. rewrite Hb.
  change (bind (Ok ?v) ?f) with (f v). cbv beta. fold (is_call (lookup_field "parent" fs)) in Hiff.
  destruct (truthy b) eqn:E.
  - pose proof (proj1 Hiff eq_refl) as Hcall.
    destruct (node_type_object _ _ Hcall) as [pfs Hpfs].
    rewrite Hpfs in *. rewrite get_object.
    change (bind (Ok ?v) ?f) with (f v). cbv beta.
    destruct (hasThenProperty_cases (lookup_field "parent" pfs))
      as (r & Hr & Hiff').
    exists r. split; [exact Hr|]. rewrite Hiff'. split.
    + intros Hthen. left. split; [exact Hcall|]. eauto.
    + intros [(_ & g & [= <-] & Hthen)|[Hnot _]];
        [exact Hthen | contradiction].
  - destruct (hasThenProperty_cases (lookup_field "parent" fs))
      as (r & Hr & Hiff').
    exists r. split; [exact Hr|]. rewrite Hiff'. split.
    + intros Hthen. right. split; [|exact Hthen].
      intros Hcall. apply Hiff in Hcall. discriminate.
    + intros [(Hcall & _)|[_ Hthen]]; [|exact Hthen].
      apply Hiff in Hcall. discriminate.
Qed.

(** ** getVariableReferences *)

Section VariableReferencesProperties.
Variable getDeclaredVariables : value -> list value.

(** X8.  [getVariableReferences] returns the empty array on anything
    that is not a variable declarator; on a declarator for which the
    scope analysis lists no variable it raises a [TypeError]; and on a
    declarator with variables it returns the references of the first
    one without the first reference (an empty remainder included). *)
Theorem getVariableReferences_cases (node : value) :
  (node_type node <> Some "VariableDeclarator" ->
   getVariableReferences getDeclaredVariables node = Ok (VArr []))
  /\ (node_type node = Some "VariableDeclarator" ->
      getDeclaredVariables node = [] ->
      getVariableReferences getDeclaredVariables node = Throw TypeError)
  /\ (node_type node = Some "VariableDeclarator" ->
      forall variable others references,
        getDeclaredVariables node = variable :: others ->
        get variable "references" = Ok (VArr references) ->
        getVariableReferences getDeclaredVariables node
        = Ok (VArr (tail references))).
Proof.
  unfold getVariableReferences.
  destruct (guarded_type_is_spec node "VariableDeclarator") as (b & Hb & Hiff).
  unfold isVariableDeclarator, AST_NODE_TYPES.VariableDeclarator.
  rewrite Hb. change (bind (Ok ?v) ?f) with (f v). cbv beta. unfold js_and.
  split; [|split].
  - intros Hne. destruct (truthy b) eqn:E; [exfalso; apply Hne, Hiff; reflexivity|].
    simpl. unfold js_or. rewrite E. reflexivity.
  - intros Hty Hnone. rewrite (proj2 Hiff Hty), Hnone. reflexivity.
  - intros Hty variable others references Hsome Hrefs.
    rewrite (proj2 Hiff Hty), Hsome. simpl. rewrite Hrefs. reflexivity.
Qed.
End VariableReferencesProperties.

Lemma getVariableReferences_cases_witness :
  getVariableReferences (fun _ => [declared_a])
    (VariableDeclarator_node (Identifier_node "a"))
  = Ok (VArr [VStr "use 1"; VStr "use 2"])
  /\ getVariableReferences (fun _ => [])
       (VariableDeclarator_node (Identifier_node "a"))
     = Throw TypeError
  /\ getVariableReferences (fun _ => [declared_a]) (Identifier_node "a")
     = Ok (VArr []).
Proof.
  split; [|split].
  - exact (proj2 (proj2 (getVariableReferences_cases (fun _ => [declared_a])
             (VariableDeclarator_node (Identifier_node "a"))))
             eq_refl declared_a [] _ eq_refl eq_refl).
  - exact (proj1 (proj2 (getVariableReferences_cases (fun _ => [])
             (VariableDeclarator_node (Identifier_node "a"))))
             eq_refl eq_refl).
  - refine (proj1 (getVariableReferences_cases (fun _ => [declared_a])
              (Identifier_node "a")) _).
    discriminate.
Defined.

(** ** What the slots hold *)

Lemma literal_test_spec (f : value -> bool) (arg : value) :
  exists r, literal_test f arg = Ok r /\
            (truthy r = true <->
             node_type arg = Some "Literal" /\
             exists s, get arg "value" = Ok (VStr s) /\ f (VStr s) = true).
Proof.
  unfold literal_test.
  destruct (guarded_type_is_spec arg "Literal") as (b & Hb & Hiff).
  unfold isLiteral, AST_NODE_TYPES.Literal. rewrite Hb.
  change (bind (Ok ?v) ?g) with (g v). cbv beta. unfold js_and at 1.
  destruct (truthy b) eqn:E.
  - pose proof (proj1 Hiff eq_refl) as Hty.
    destruct (node_type_object _ _ Hty) as [fs Hfs]. subst arg.
    rewrite !get_object. change (bind (Ok ?v) ?g) with (g v). cbv beta.
    destruct (lookup_field "value" fs) as [| | | |s| |] eqn:Ev; simpl;
      eexists; (split; [reflexivity|]); simpl;
      (split; [try discriminate | intros (_ & s' & [= Hs] & Hf)]);
      try discriminate Hs.
    + intros Hf. split; [exact Hty|]. eauto.
    + subst s'. exact Hf.
  - exists b. split; [reflexivity|]. rewrite E. split; [discriminate|].
    intros [Hty _]. apply Hiff in Hty. discriminate.
Qed.

Lemma js_some_true {A} (p : A -> result value) (l : list A) (r : value) :
  js_some p l = Ok r -> truthy r = true ->
  exists x b, In x l /\ p x = Ok b /\ truthy b = true.
Proof.
  induction l as [|x l IH]; simpl; [intros [= <-]; discriminate|].
  destruct (p x) as [b|] eqn:Ep; simpl; [|discriminate].
  destruct (truthy b) eqn:E.
  - intros _ _. exists x, b. auto.
  - intros Hr Ht. destruct (IH Hr Ht) as (y & c & Hin & Hy & Hc). eauto 6.
Qed.

Lemma js_some_found {A} (p : A -> result value) (l : list A) (x : A) :
  (forall y, exists r, p y = Ok r) ->
  In x l -> (exists b, p x = Ok b /\ truthy b = true) ->
  js_some p l = Ok (VBool true).
Proof.
  intros Hp Hin (b & Hb & Ht). induction l as [|y l IH]; [destruct Hin|].
  simpl. destruct Hin as [->|Hin].
  - rewrite Hb. simpl. rewrite Ht. reflexivity.
  - destruct (Hp y) as [r ->]. simpl. destruct (truthy r); auto.
Qed.

Lemma string_argument_found (f : value -> bool) (call : value)
    (args : list value) (s : string) :
  get call "arguments" = Ok (VArr args) ->
  string_argument call s -> f (VStr s) = true ->
  js_some (literal_test f) args = Ok (VBool true).
Proof.
  intros Hargs (args' & arg & Hargs' & Hin & Hty & Hv) Hf.
  assert (args' = args) by congruence. subst args'.
  apply (js_some_found _ _ arg); [|exact Hin|].
  - intros y. destruct (literal_test_spec f y) as (r & Hr & _). eauto.
  - destruct (literal_test_spec f arg) as (r & Hr & Hiff).
    exists r. split; [exact Hr|]. apply Hiff. eauto.
Qed.

Lemma some_argument (f : value -> bool) (call : value) (l : list value)
    (r : value) :
  get call "arguments" = Ok (VArr l) ->
  js_some (literal_test f) l = Ok r -> truthy r = true ->
  exists s, string_argument call s /\ f (VStr s) = true.
Proof.
  intros Hargs Hsome Ht.
  destruct (js_some_true _ _ _ Hsome Ht) as (arg & b & Hin & Hb & Hbt).
  destruct (literal_test_spec f arg) as (b' & Hb' & Hiff).
  assert (b' = b) by congruence. subst b'.
  destruct (proj1 Hiff Hbt) as (Hty & s & Hv & Hf).
  exists s. split; [|exact Hf]. exists l, arg. auto.
Qed.

Lemma as_array_inv (v : value) (l : list value) :
  as_array v = Ok l -> v = VArr l.
Proof. destruct v; simpl; congruence. Qed.

(** What a declaration must look like to be written into a slot. *)
Lemma ImportDeclaration_writes (context : TestingLibraryContext)
    (node : value) (st st' : DetectionState) :
  ImportDeclaration context node st = Ok st' ->
  (importedTestingLibraryNode st' = importedTestingLibraryNode st \/
   importedTestingLibraryNode st' = node /\
   exists text, import_source_text node text /\
                containsb "testing-library" text = true) /\
  (importedCustomModuleNode st' = importedCustomModuleNode st \/
   importedCustomModuleNode st' = node /\
   exists text, import_source_text node text /\
                endsWithb text (ToString (customModule context)) = true).
Proof.
  unfold ImportDeclaration, test_testing_library, import_source_text.
  destruct st as [tl cm]. simpl.
  destruct (truthy tl) eqn:Etl; destruct (truthy cm) eqn:Ecm; crunch;
    intros H; try discriminate H; inversion H; subst; simpl;
    split; eauto 10.
Qed.

Lemma RequireCall_writes (context : TestingLibraryContext)
    (node : value) (st st' : DetectionState) :
  RequireCall context node st = Ok st' ->
  exists call,
    get node "parent" = Ok call /\
    (importedTestingLibraryNode st' = importedTestingLibraryNode st \/
     importedTestingLibraryNode st' = call /\
     exists s, string_argument call s /\
               containsb "testing-library" s = true) /\
    (importedCustomModuleNode st' = importedCustomModuleNode st \/
     importedCustomModuleNode st' = call /\
     exists s, string_argument call s /\
               endsWithb s (ToString (customModule context)) = true).
Proof.
  unfold RequireCall.
  fold (literal_test test_testing_library).
  fold (literal_test (fun v => endsWithb (ToString v)
                                 (ToString (customModule context)))).
  destruct st as [tl cm]. simpl.
  destruct (truthy tl) eqn:Etl; destruct (truthy cm) eqn:Ecm; crunch;
    intros H; try discriminate H; inversion H; subst; simpl;
    eexists; (split; [reflexivity|]);
    repeat match goal with
    | Ha : as_array _ = Ok _ |- _ => apply as_array_inv in Ha; subst
    end;
    repeat match goal with
    | Hg : get ?c "arguments" = Ok (VArr ?l),
      Hs : js_some (literal_test ?f) ?l = Ok ?r,
      Ht : truthy ?r = true |- _ =>
        pose proof (some_argument f c l r Hg Hs Ht); clear Hs
    end;
    split; eauto.
Qed.

(** A slot's content, if it changed during a traversal, is a node that
    was visited and passed the slot's test. *)
Lemma traverse_writes (context : TestingLibraryContext) (vs : list visit) :
  forall st0 st,
    traverse context vs st0 = Ok st ->
    (importedTestingLibraryNode st = importedTestingLibraryNode st0 \/
     (exists n text,
        In (VisitImportDeclaration n) vs /\
        importedTestingLibraryNode st = n /\
        import_source_text n text /\ contains_marker text) \/
     (exists n s,
        In (VisitRequire n) vs /\
        get n "parent" = Ok (importedTestingLibraryNode st) /\
        string_argument (importedTestingLibraryNode st) s /\
        contains_marker s)) /\
    (importedCustomModuleNode st = importedCustomModuleNode st0 \/
     (exists n text before,
        In (VisitImportDeclaration n) vs /\
        importedCustomModuleNode st = n /\
        import_source_text n text /\
        text = before +:+ ToString (customModule context)) \/
     (exists n s before,
        In (VisitRequire n) vs /\
        get n "parent" = Ok (importedCustomModuleNode st) /\
        string_argument (importedCustomModuleNode st) s /\
        s = before +:+ ToString (customModule context))).
Proof.
  induction vs as [|v vs IH]; simpl; intros st0 st H.
  - injection H as <-. auto.
  - destruct (detect context v st0) as [st1|] eqn:E; simpl in H; [|discriminate].
    destruct (IH _ _ H) as [IHtl IHcm]. clear IH.
    assert (Hstep :
      (importedTestingLibraryNode st1 = importedTestingLibraryNode st0 \/
       (exists n text, v = VisitImportDeclaration n /\
          importedTestingLibraryNode st1 = n /\
          import_source_text n text /\ contains_marker text) \/
       (exists n s, v = VisitRequire n /\
          get n "parent" = Ok (importedTestingLibraryNode st1) /\
          string_argument (importedTestingLibraryNode st1) s /\
          contains_marker s)) /\
      (importedCustomModuleNode st1 = importedCustomModuleNode st0 \/
       (exists n text before, v = VisitImportDeclaration n /\
          importedCustomModuleNode st1 = n /\
          import_source_text n text /\
          text = before +:+ ToString (customModule context)) \/
       (exists n s before, v = VisitRequire n /\
          get n "parent" = Ok (importedCustomModuleNode st1) /\
          string_argument (importedCustomModuleNode st1) s /\
          s = before +:+ ToString (customModule context)))).
    { destruct v as [n|n]; simpl in E.
      - apply ImportDeclaration_writes in E as [Htl Hcm]. split.
        + destruct Htl as [->|(-> & text & Htext & Hc)]; [auto|].
          right. left. apply containsb_spec in Hc. eauto 8.
        + destruct Hcm as [->|(-> & text & Htext & Hc)]; [auto|].
          right. left. apply endsWithb_spec in Hc as [before ->]. eauto 8.
      - apply RequireCall_writes in E as (call & Hcall & Htl & Hcm). split.
        + destruct Htl as [->|(-> & s & Harg & Hc)]; [auto|].
          right. right. apply containsb_spec in Hc. eauto 8.
        + destruct Hcm as [->|(-> & s & Harg & Hc)]; [auto|].
          right. right. apply endsWithb_spec in Hc as [before ->]. eauto 8. }
    destruct Hstep as [Htl Hcm].
    split.
    + destruct IHtl as [Heq|[(n & text & Hin & IH')|(n & s & Hin & IH')]].
      * rewrite Heq.
        destruct Htl as [->|[(n & text & -> & Hrest)|(n & s & -> & Hrest)]];
          [auto | right; left; eauto 8 | right; right; eauto 8].
      * right. left. eauto 8.
      * right. right. eauto 8.
    + destruct IHcm as [Heq|[(n & text & b & Hin & IH')|(n & s & b & Hin & IH')]].
      * rewrite Heq.
        destruct Hcm
          as [->|[(n & text & b & -> & Hrest)|(n & s & b & -> & Hrest)]];
          [auto | right; left; eauto 10 | right; right; eauto 10].
      * right. left. eauto 10.
      * right. right. eauto 10.
Qed.

(** X9.  The target-library slot is sound: when a traversal from the
    initial state leaves it Recorded, the node it holds is an import
    declaration that was visited and whose source text contains
    [testing-library], or the call of a visited [require] identifier
    with a string literal containing [testing-library] among its
    arguments. *)
Theorem targetLib_slot_sound (context : TestingLibraryContext)
    (vs : list visit) (st : DetectionState) :
  traverse context vs initialState = Ok st ->
  Recorded (importedTestingLibraryNode st) ->
  (exists n text,
     In (VisitImportDeclaration n) vs /\
     importedTestingLibraryNode st = n /\
     import_source_text n text /\ contains_marker text) \/
  (exists n s,
     In (VisitRequire n) vs /\
     get n "parent" = Ok (importedTestingLibraryNode st) /\
     string_argument (importedTestingLibraryNode st) s /\
     contains_marker s).
Proof.
  intros Hrun [fs Hrec].
  destruct (traverse_writes _ _ _ _ Hrun) as [[Heq|H] _]; [|exact H].
  simpl in Heq. congruence.
Qed.

(** X10.  The custom-module slot is sound when a module is
    configured: when a traversal from the initial state leaves it
    Recorded, the node it holds is a visited import declaration whose
    source text ends with the configured name, or the call of a visited
    [require] identifier with a string literal ending with that name
    among its arguments. *)
Theorem customModule_slot_sound (context : TestingLibraryContext)
    (name : string) (vs : list visit) (st : DetectionState) :
  testing_library_module (settings context) = Some name ->
  traverse context vs initialState = Ok st ->
  Recorded (importedCustomModuleNode st) ->
  (exists n text before,
     In (VisitImportDeclaration n) vs /\
     importedCustomModuleNode st = n /\
     import_source_text n text /\ text = before +:+ name) \/
  (exists n s before,
     In (VisitRequire n) vs /\
     get n "parent" = Ok (importedCustomModuleNode st) /\
     string_argument (importedCustomModuleNode st) s /\
     s = before +:+ name).
Proof.
  intros Hname Hrun [fs Hrec].
  destruct (traverse_writes _ _ _ _ Hrun) as [_ [Heq|H]].
  - simpl in Heq. congruence.
  - unfold customModule in H. rewrite Hname in H. exact H.
Qed.

(** ** Detection does not miss *)

Lemma detect_keeps_truthy (context : TestingLibraryContext) (v : visit)
    (st st' : DetectionState) :
  detect context v st = Ok st' ->
  (truthy (importedTestingLibraryNode st) = true ->
   truthy (importedTestingLibraryNode st') = true) /\
  (truthy (importedCustomModuleNode st) = true ->
   truthy (importedCustomModuleNode st') = true).
Proof.
  intros H. apply detect_step in H as [Htl Hcm]. split; intros Ht.
  - destruct Htl as [->|[Hf _]]; congruence.
  - destruct Hcm as [->|[Hf _]]; congruence.
Qed.

Lemma traverse_keeps_truthy (context : TestingLibraryContext)
    (vs : list visit) (st st' : DetectionState) :
  traverse context vs st = Ok st' ->
  (truthy (importedTestingLibraryNode st) = true ->
   truthy (importedTestingLibraryNode st') = true) /\
  (truthy (importedCustomModuleNode st) = true ->
   truthy (importedCustomModuleNode st') = true).
Proof.
  intros H. destruct (traverse_keeps _ _ _ _ H) as [Htl Hcm].
  split; intros Ht; [rewrite (Htl Ht) | rewrite (Hcm Ht)]; exact Ht.
Qed.

(** A visit that passes a slot's test leaves that slot truthy. *)
Lemma ImportDeclaration_fills (context : TestingLibraryContext)
    (node : value) (text : string) (st st' : DetectionState) :
  import_source_text node text ->
  ImportDeclaration context node st = Ok st' ->
  (containsb "testing-library" text = true ->
   truthy (importedTestingLibraryNode st') = true) /\
  (endsWithb text (ToString (customModule context)) = true ->
   truthy (importedCustomModuleNode st') = true).
Proof.
  intros (source & v & Hs & Hv & <-).
  assert (Hnode : truthy node = true).
  { destruct (get_field_object _ _ _ _ _ Hs Hv) as [fs ->]. reflexivity. }
  unfold ImportDeclaration, test_testing_library.
  destruct st as [tl cm]. simpl. rewrite Hs. simpl. rewrite Hv. simpl.
  destruct (truthy tl) eqn:Etl; simpl;
    [|destruct (containsb "testing-library" (ToString v)) eqn:Ec; simpl];
    destruct (truthy cm) eqn:Ecm; simpl;
    try (destruct (endsWithb (ToString v) _) eqn:Ee; simpl);
    intros [= <-]; simpl; split; congruence.
Qed.

Lemma RequireCall_fills (context : TestingLibraryContext)
    (node call : value) (s : string) (st st' : DetectionState) :
  get node "parent" = Ok call -> string_argument call s ->
  RequireCall context node st = Ok st' ->
  (containsb "testing-library" s = true ->
   truthy (importedTestingLibraryNode st') = true) /\
  (endsWithb s (ToString (customModule context)) = true ->
   truthy (importedCustomModuleNode st') = true).
Proof.
  intros Hcall Harg.
  assert (Hargs : exists args, get call "arguments" = Ok (VArr args))
    by (destruct Harg as (args & _ & Ha & _); eauto).
  destruct Hargs as [args Hargs].
  assert (Htruthy : truthy call = true).
  { destruct (get_array_object call "arguments" (VArr args) args Hargs eq_refl)
      as [fs ->]. reflexivity. }
  unfold RequireCall.
  fold (literal_test test_testing_library).
  fold (literal_test (fun v => endsWithb (ToString v)
                                 (ToString (customModule context)))).
  destruct st as [tl cm]. simpl. rewrite Hcall. simpl. rewrite Hargs. simpl.
  pose proof (string_argument_found test_testing_library call args s
                Hargs Harg) as Htl.
  pose proof (string_argument_found
                (fun v => endsWithb (ToString v)
                            (ToString (customModule context)))
                call args s Hargs Harg) as Hcm.
  assert (Htotal : forall f, exists b,
            js_some (literal_test f) args = Ok (VBool b)).
  { intros f. apply js_some_total. intros y.
    destruct (literal_test_spec f y) as (r & Hr & _). eauto. }
  destruct (Htotal test_testing_library) as [b1 Hb1].
  destruct (Htotal (fun v => endsWithb (ToString v)
                               (ToString (customModule context))))
    as [b2 Hb2].
  assert (H1 : containsb "testing-library" s = true -> b1 = true).
  { intros Hc. rewrite (Htl Hc) in Hb1. congruence. }
  assert (H2 : endsWithb s (ToString (customModule context)) = true ->
               b2 = true).
  { intros Hc. rewrite (Hcm Hc) in Hb2. congruence. }
  rewrite Hb1, Hb2. clear Htl Hcm Hb1 Hb2 Htotal.
  destruct (truthy tl) eqn:Etl; simpl; destruct b1; simpl;
    destruct (truthy cm) eqn:Ecm; simpl; destruct b2; simpl;
    intros H; injection H as <-; simpl;
    (split; intros Hc; try congruence);
    try (specialize (H1 Hc); discriminate);
    try (specialize (H2 Hc); discriminate).
Qed.

Lemma traverse_fills (context : TestingLibraryContext) (vs : list visit) :
  forall st0 st v,
    traverse context vs st0 = Ok st -> In v vs ->
    (names_testing_library v ->
     truthy (importedTestingLibraryNode st) = true) /\
    (names_module (ToString (customModule context)) v ->
     truthy (importedCustomModuleNode st) = true).
Proof.
  induction vs as [|w vs IH]; simpl; intros st0 st v H Hin; [destruct Hin|].
  destruct (detect context w st0) as [st1|] eqn:E; simpl in H; [|discriminate].
  destruct Hin as [->|Hin]; [|exact (IH _ _ _ H Hin)].
  destruct (traverse_keeps_truthy _ _ _ _ H) as [Ktl Kcm].
  destruct v as [n|n]; simpl in E |- *.
  - split.
    + intros (text & Htext & Hc). apply Ktl.
      apply (proj1 (ImportDeclaration_fills _ _ _ _ _ Htext E)).
      apply containsb_spec. exact Hc.
    + intros (text & before & Htext & Hc). apply Kcm.
      apply (proj2 (ImportDeclaration_fills _ _ _ _ _ Htext E)).
      apply endsWithb_spec. eauto.
  - split.
    + intros (call & s & Hcall & Harg & Hc). apply Ktl.
      apply (proj1 (RequireCall_fills _ _ _ _ _ _ Hcall Harg E)).
      apply containsb_spec. exact Hc.
    + intros (call & s & before & Hcall & Harg & Hc). apply Kcm.
      apply (proj2 (RequireCall_fills _ _ _ _ _ _ Hcall Harg E)).
      apply endsWithb_spec. eauto.
Qed.

(** X11.  Detection does not miss: after a traversal from the initial
    state that ran to its end, a visit whose source contains
    [testing-library] has the target-library slot Recorded, a visit
    whose source ends with the configured module name has the
    custom-module slot Recorded, and either one makes
    [getIsTestingLibraryImported] answer [true]. *)
Theorem detection_complete (context : TestingLibraryContext)
    (vs : list visit) (st : DetectionState) (v : visit) :
  traverse context vs initialState = Ok st -> In v vs ->
  (names_testing_library v -> Recorded (importedTestingLibraryNode st)) /\
  (forall name,
     testing_library_module (settings context) = Some name ->
     names_module name v -> Recorded (importedCustomModuleNode st)) /\
  (names_testing_library v \/
   (exists name, testing_library_module (settings context) = Some name /\
                 names_module name v) ->
   getIsTestingLibraryImported context st = true).
Proof.
  intros Hrun Hin.
  destruct (traverse_fills _ _ _ _ _ Hrun Hin) as [Htl Hcm].
  destruct (reachable_slots_ok context st (ex_intro _ vs Hrun)) as [Otl Ocm].
  assert (Hcm' : forall name,
            testing_library_module (settings context) = Some name ->
            names_module name v ->
            truthy (importedCustomModuleNode st) = true).
  { intros name Hname Hv. apply Hcm. unfold customModule.
    rewrite Hname. exact Hv. }
  split; [|split].
  - intros Hv. apply (slot_truthy_Recorded _ Otl), Htl, Hv.
  - intros name Hname Hv. apply (slot_truthy_Recorded _ Ocm). eauto.
  - intros Hv. unfold getIsTestingLibraryImported.
    destruct (negb (truthy (customModule context))); [reflexivity|].
    apply orb_true_iff.
    destruct Hv as [Hv|(name & Hname & Hv)]; [left; auto | right; eauto].
Qed.

Lemma canReportErrors_kept (context : TestingLibraryContext)
    (vs : list visit) (st st' : DetectionState) :
  traverse context vs st = Ok st' ->
  canReportErrors context st = true ->
  canReportErrors context st' = true.
Proof.
  intros Hrun. unfold canReportErrors, getIsTestingLibraryImported.
  destruct (traverse_keeps_truthy _ _ _ _ Hrun) as [Ktl Kcm].
  rewrite !andb_true_iff. intros [Himp Hfile]. split; [|exact Hfile].
  destruct (negb (truthy (customModule context))); [reflexivity|].
  apply orb_true_iff in Himp. apply orb_true_iff.
  destruct Himp as [H|H]; [left; auto | right; auto].
Qed.

(** X12.  Once open, the gate stays open: if [canReportErrors] answers
    [true] in a state, it answers [true] in every state a traversal
    reaches from there. *)
Theorem gate_stays_open (context : TestingLibraryContext)
    (vs : list visit) (st st' : DetectionState) :
  traverse context vs st = Ok st' ->
  canReportErrors context st = true ->
  canReportErrors context st' = true.
Proof. exact (canReportErrors_kept context vs st st'). Qed.

Lemma targetLib_slot_sound_witness :
  exists st,
    traverse (context_with None "app.test.js")
      [VisitImportDeclaration undefined_import; VisitRequire vue_require;
       VisitImportDeclaration react_import] initialState = Ok st
    /\ ((exists n text,
           In (VisitImportDeclaration n)
              [VisitImportDeclaration undefined_import; VisitRequire vue_require;
               VisitImportDeclaration react_import] /\
           importedTestingLibraryNode st = n /\
           import_source_text n text /\ contains_marker text) \/
        (exists n s,
           In (VisitRequire n)
              [VisitImportDeclaration undefined_import; VisitRequire vue_require;
               VisitImportDeclaration react_import] /\
           get n "parent" = Ok (importedTestingLibraryNode st) /\
           string_argument (importedTestingLibraryNode st) s /\
           contains_marker s)).
Proof.
  eexists. split; [reflexivity|].
  apply (targetLib_slot_sound (context_with None "app.test.js")
           [VisitImportDeclaration undefined_import; VisitRequire vue_require;
            VisitImportDeclaration react_import] _ eq_refl).
  eexists. reflexivity.
Defined.

Lemma customModule_slot_sound_witness :
  exists n text before,
    In (VisitImportDeclaration n)
       [VisitImportDeclaration react_import;
        VisitImportDeclaration my_test_utils_import] /\
    n = my_test_utils_import /\
    import_source_text n text /\ text = before +:+ "my-test-utils".
Proof.
  destruct (customModule_slot_sound
              (context_with (Some "my-test-utils") "app.test.js")
              "my-test-utils"
              [VisitImportDeclaration react_import;
               VisitImportDeclaration my_test_utils_import]
              {| importedTestingLibraryNode := react_import;
                 importedCustomModuleNode := my_test_utils_import |}
              eq_refl eq_refl (ex_intro _ _ eq_refl))
    as [(n & text & before & Hin & Hn & Htext & Hsuffix)
       |(n & s & before & Hin & _)].
  - exists n, text, before. simpl in Hn. auto.
  - exfalso. simpl in Hin. destruct Hin as [H|[H|[]]]; discriminate H.
Defined.

Lemma detection_complete_witness :
  exists st,
    traverse (context_with (Some "my-test-utils") "app.test.js")
      [VisitImportDeclaration undefined_import; VisitRequire vue_require]
      initialState = Ok st
    /\ Recorded (importedTestingLibraryNode st)
    /\ getIsTestingLibraryImported
         (context_with (Some "my-test-utils") "app.test.js") st = true.
Proof.
  eexists. split; [reflexivity|].
  assert (Hnames : names_testing_library (VisitRequire vue_require)).
  { exists (plain_require "@testing-library/vue" "vtl"), "@testing-library/vue".
    split; [reflexivity|]. split.
    - exists [Literal_node (VStr "@testing-library/vue")],
             (Literal_node (VStr "@testing-library/vue")).
      repeat split. left. reflexivity.
    - exists "@", "/vue". reflexivity. }
  destruct (detection_complete
              (context_with (Some "my-test-utils") "app.test.js")
              [VisitImportDeclaration undefined_import; VisitRequire vue_require]
              _ (VisitRequire vue_require) eq_refl
              (or_intror (or_introl eq_refl)))
    as (Htl & _ & Himported).
  split; [exact (Htl Hnames) | exact (Himported (or_introl Hnames))].
Defined.

Lemma gate_stays_open_witness :
  canReportErrors (context_with (Some "my-test-utils") "app.test.js")
                  my_test_utils_state = true
  /\ exists st',
       traverse (context_with (Some "my-test-utils") "app.test.js")
         [VisitImportDeclaration undefined_import; VisitRequire vue_require]
         my_test_utils_state = Ok st'
       /\ canReportErrors (context_with (Some "my-test-utils") "app.test.js")
                          st' = true.
Proof.
  split; [reflexivity|]. eexists. split; [reflexivity|].
  apply (gate_stays_open (context_with (Some "my-test-utils") "app.test.js")
           [VisitImportDeclaration undefined_import; VisitRequire vue_require]
           my_test_utils_state _ eq_refl eq_refl).
Defined.

(** ** Lookups through a recorded [require] *)

Lemma not_import_declaration (node : value) :
  node_type node <> Some "ImportDeclaration" ->
  exists d, isImportDeclaration node = Ok d /\ truthy d = false.
Proof.
  intros Hne.
  destruct (optional_type_is_spec node "ImportDeclaration") as (d & Hd & Hiff).
  exists d. split; [exact Hd|].
  destruct (truthy d); [exfalso; apply Hne, Hiff; reflexivity | reflexivity].
Qed.

(** X13.  When the selected node is not an import declaration and its
    parent binds a plain identifier ([const rtl = require(...)]), the
    lookup returns that identifier for every symbol asked for, whether
    the module exports it or not. *)
Theorem plain_binding_lookup (node parent id : value) :
  node_type node <> Some "ImportDeclaration" ->
  get node "parent" = Ok parent ->
  get parent "id" = Ok id ->
  node_type id = Some "Identifier" ->
  forall specifierName, findSpecifierIn node specifierName = Ok id.
Proof.
  intros Hne Hparent Hid Hty specifierName. unfold findSpecifierIn.
  destruct (not_import_declaration node Hne) as (d & -> & Hd).
  change (bind (Ok ?v) ?f) with (f v). cbv beta. rewrite Hd, Hparent.
  change (bind (Ok ?v) ?f) with (f v). cbv beta. rewrite Hid.
  change (bind (Ok ?v) ?f) with (f v). cbv beta.
  destruct (guarded_type_is_spec id "Identifier") as (b & Hb & Hiff).
  unfold isIdentifier, AST_NODE_TYPES.Identifier. rewrite Hb.
  change (bind (Ok ?v) ?f) with (f v). cbv beta.
  rewrite (proj2 Hiff Hty). reflexivity.
Qed.

Lemma plain_binding_lookup_witness :
  findSpecifierIn (plain_require "@testing-library/vue" "vtl") "render"
  = Ok (Identifier_node "vtl")
  /\ findSpecifierIn (plain_require "@testing-library/vue" "vtl") "screen"
     = Ok (Identifier_node "vtl").
Proof.
  split;
    apply (plain_binding_lookup (plain_require "@testing-library/vue" "vtl")
             (VariableDeclarator_node (Identifier_node "vtl"))
             (Identifier_node "vtl")); try reflexivity; discriminate.
Defined.




(** ** A run of the merged listeners *)

Lemma detectionInstructions_lookup (context : TestingLibraryContext)
    (selector : string) :
  detectionInstructions context !! selector
  = if selector =? IMPORT_SELECTOR then Some (ImportDeclaration context)
    else if selector =? REQUIRE_SELECTOR then Some (RequireCall context)
    else None.
Proof.
  unfold detectionInstructions.
  destruct (selector =? IMPORT_SELECTOR) eqn:Ei.
  - apply String.eqb_eq in Ei as ->. apply lookup_insert_eq.
  - apply String.eqb_neq in Ei. rewrite lookup_insert_ne by congruence.
    destruct (selector =? REQUIRE_SELECTOR) eqn:Er.
    + apply String.eqb_eq in Er as ->. apply lookup_insert_eq.
    + apply String.eqb_neq in Er. rewrite lookup_insert_ne by congruence.
      apply lookup_empty.
Qed.

Section HostProperties.
Context {RuleState : Type}.
Variable context : TestingLibraryContext.
Variable ruleInstructions : gmap string (@RuleListener RuleState).

(** What a merged listener does once detection has answered [d]. *)
Lemma enhancedListener_after (selector : string) (node : value)
    (d : result DetectionState) (rs : RuleState) (v : value)
    (st' : DetectionState) (rs' : RuleState) :
  (let* st1 := d in
   if canReportErrors context st1 then
     match ruleInstructions !! selector with
     | Some listener =>
         let* (v, rs) := listener node st1 rs in
         Ok (v, (st1, rs))
     | None => Ok (VUndefined, (st1, rs))
     end
   else Ok (VUndefined, (st1, rs))) = Ok (v, (st', rs')) ->
  d = Ok st' /\
  (canReportErrors context st' = false -> rs' = rs /\ v = VUndefined).
Proof.
  destruct d as [st1|]; cbn [bind]; [|discriminate].
  destruct (canReportErrors context st1) eqn:Eg.
  - destruct (ruleInstructions !! selector) as [listener|].
    + destruct (listener node st1 rs) as [[v1 rs1]|]; cbn [bind];
        [|discriminate].
      intros H. inversion H; subst. split; [reflexivity|].
      intros Hclosed. rewrite Hclosed in Eg. discriminate Eg.
    + intros H. inversion H; subst. split; [reflexivity|].
      intros Hclosed. rewrite Hclosed in Eg. discriminate Eg.
  - intros H. inversion H; subst. split; [reflexivity | auto].
Qed.

(** One call of a merged listener, seen from both sides. *)
Lemma dispatch_enhanced (selector : string) (node : value)
    (st : DetectionState) (rs : RuleState) (v : value)
    (st' : DetectionState) (rs' : RuleState) :
  dispatch (enhancedRuleInstructions context ruleInstructions)
           selector node (st, rs) = Ok (v, (st', rs')) ->
  traverse context (visit_of (selector, node)) st = Ok st' /\
  (canReportErrors context st' = false -> rs' = rs /\ v = VUndefined).
Proof.
  unfold dispatch, visit_of. cbn [fst snd].
  destruct (enhancedRuleInstructions_lookup context ruleInstructions selector)
    as [Hin Hout].
  destruct (decide (selector ∈ allKeys context ruleInstructions)) as [Hk|Hk].
  - unfold EnhancedListener in *. rewrite (Hin Hk). unfold enhancedListener.
    rewrite detectionInstructions_lookup. intros H.
    destruct (selector =? IMPORT_SELECTOR);
      [|destruct (selector =? REQUIRE_SELECTOR)];
      apply enhancedListener_after in H as [Hd Hrule];
      (split; [|exact Hrule]); cbn [traverse detect].
    + rewrite Hd. reflexivity.
    + rewrite Hd. reflexivity.
    + exact Hd.
  - unfold EnhancedListener in *. rewrite (Hout Hk). intros H.
    inversion H; subst.
    rewrite allKeys_union in Hk.
    assert (Hnd : detectionInstructions context !! selector = None).
    { apply not_elem_of_dom. intros Hd. apply Hk, elem_of_union_l, Hd. }
    rewrite detectionInstructions_lookup in Hnd.
    destruct (selector =? IMPORT_SELECTOR); [discriminate Hnd|].
    destruct (selector =? REQUIRE_SELECTOR); [discriminate Hnd|].
    split; [reflexivity | auto].
Qed.

Lemma traverse_app (vs1 vs2 : list visit) (st st1 st2 : DetectionState) :
  traverse context vs1 st = Ok st1 -> traverse context vs2 st1 = Ok st2 ->
  traverse context (vs1 ++ vs2) st = Ok st2.
Proof.
  revert st. induction vs1 as [|v vs1 IH]; simpl; intros st H1 H2.
  - injection H1 as ->. exact H2.
  - destruct (detect context v st) as [st'|]; simpl in *; [|discriminate].
    exact (IH _ H1 H2).
Qed.

Lemma run_listeners_detects (calls : list (string * value))
    (st : DetectionState) (rs : RuleState) (outs : list value)
    (st' : DetectionState) (rs' : RuleState) :
  run_listeners (enhancedRuleInstructions context ruleInstructions)
                calls (st, rs) = Ok (outs, (st', rs')) ->
  traverse context (visits_of calls) st = Ok st'.
Proof.
  revert st rs outs st' rs'.
  induction calls as [|[selector node] calls IH]; simpl;
    intros st rs outs st' rs' H.
  - injection H as <- <- <-. reflexivity.
  - destruct (dispatch _ selector node (st, rs)) as [[v [st1 rs1]]|] eqn:E;
      cbn [bind] in H; [|discriminate].
    destruct (run_listeners _ calls (st1, rs1)) as [[vs [st2 rs2]]|] eqn:E2;
      cbn [bind] in H; [|discriminate].
    injection H as <- <- <-.
    apply dispatch_enhanced in E as [E _].
    eapply traverse_app; [exact E | eapply IH; exact E2].
Qed.

(** X15.  The rule cannot disturb detection: whatever listeners the
    rule registers, the detection state after a run of the merged
    listeners is the one the detection listeners alone produce on the
    same calls. *)
Theorem detection_undisturbed (calls : list (string * value))
    (st : DetectionState) (rs : RuleState) (outs : list value)
    (st' : DetectionState) (rs' : RuleState) :
  run_listeners (enhancedRuleInstructions context ruleInstructions)
                calls (st, rs) = Ok (outs, (st', rs')) ->
  traverse context (visits_of calls) st = Ok st'.
Proof. exact (run_listeners_detects calls st rs outs st' rs'). Qed.

(** X16.  If the gate is closed at the end of a run of the merged
    listeners, the rule was never run: its state is the one it started
    with and every call returned [undefined]. *)
Theorem closed_gate_silences_rule (calls : list (string * value))
    (st : DetectionState) (rs : RuleState) (outs : list value)
    (st' : DetectionState) (rs' : RuleState) :
  run_listeners (enhancedRuleInstructions context ruleInstructions)
                calls (st, rs) = Ok (outs, (st', rs')) ->
  canReportErrors context st' = false ->
  rs' = rs /\ Forall (fun v => v = VUndefined) outs.
Proof.
  revert st rs outs st' rs'.
  induction calls as [|[selector node] calls IH]; simpl;
    intros st rs outs st' rs' H Hclosed.
  - injection H as <- <- <-. auto.
  - destruct (dispatch _ selector node (st, rs)) as [[v [st1 rs1]]|] eqn:E;
      cbn [bind] in H; [|discriminate].
    destruct (run_listeners _ calls (st1, rs1)) as [[vs [st2 rs2]]|] eqn:E2;
      cbn [bind] in H; [|discriminate].
    injection H as <- <- <-.
    destruct (IH _ _ _ _ _ E2 Hclosed) as [-> Hvs].
    apply dispatch_enhanced in E as [_ E].
    assert (Hclosed1 : canReportErrors context st1 = false).
    { destruct (canReportErrors context st1) eqn:Eg; [|reflexivity].
      apply run_listeners_detects in E2.
      rewrite (canReportErrors_kept _ _ _ _ E2 Eg) in Hclosed. discriminate. }
    destruct (E Hclosed1) as [-> ->]. auto.
Qed.

End HostProperties.

(** What the host gets from the merged [ImportDeclaration] listener of
    [noting_rule]. *)
Lemma noting_rule_import_call (context : TestingLibraryContext)
    (node : value) (st : DetectionState) (seen : list string) :
  dispatch (enhancedRuleInstructions context noting_rule)
           IMPORT_SELECTOR node (st, seen)
  = let* st1 := ImportDeclaration context node st in
    if canReportErrors context st1
    then Ok (VStr "noted", (st1, "import" :: seen))
    else Ok (VUndefined, (st1, seen)).
Proof.
  unfold dispatch.
  destruct (enhancedRuleInstructions_lookup context noting_rule IMPORT_SELECTOR)
    as [Hin _].
  unfold EnhancedListener in *. rewrite Hin.
  - unfold enhancedListener. rewrite detectionInstructions_import.
    destruct (ImportDeclaration context node st) as [st1|]; [|reflexivity].
    change (bind (Ok ?x) ?f) with (f x). cbv beta.
    destruct (canReportErrors context st1); [|reflexivity].
    unfold noting_rule. unfold RuleListener. rewrite lookup_singleton_eq.
    reflexivity.
  - rewrite allKeys_union. apply elem_of_union_l, elem_of_dom.
    rewrite detectionInstructions_import. eauto.
Qed.

Lemma detection_undisturbed_witness :
  run_listeners
    (enhancedRuleInstructions
       (context_with (Some "my-test-utils") "app.test.js") noting_rule)
    [(IMPORT_SELECTOR, my_test_utils_import)] (initialState, [])
  = Ok ([VStr "noted"], (my_test_utils_state, ["import"]))
  /\ traverse (context_with (Some "my-test-utils") "app.test.js")
       (visits_of [(IMPORT_SELECTOR, my_test_utils_import)]) initialState
     = Ok my_test_utils_state.
Proof.
  assert (Hrun :
    run_listeners
      (enhancedRuleInstructions
         (context_with (Some "my-test-utils") "app.test.js") noting_rule)
      [(IMPORT_SELECTOR, my_test_utils_import)] (initialState, [])
    = Ok ([VStr "noted"], (my_test_utils_state, ["import"]))).
  { cbn [run_listeners]. rewrite noting_rule_import_call. reflexivity. }
  split; [exact Hrun|].
  exact (detection_undisturbed _ _ _ _ _ _ _ _ Hrun).
Defined.

Lemma closed_gate_silences_rule_witness :
  run_listeners
    (enhancedRuleInstructions (context_with None "app.js") noting_rule)
    [(IMPORT_SELECTOR, react_import)] (initialState, ["earlier"])
  = Ok ([VUndefined],
        ({| importedTestingLibraryNode := react_import;
            importedCustomModuleNode := VNull |}, ["earlier"]))
  /\ (["earlier"] = ["earlier"]
      /\ Forall (fun v => v = VUndefined) [VUndefined]).
Proof.
  assert (Hrun :
    run_listeners
      (enhancedRuleInstructions (context_with None "app.js") noting_rule)
      [(IMPORT_SELECTOR, react_import)] (initialState, ["earlier"])
    = Ok ([VUndefined],
          ({| importedTestingLibraryNode := react_import;
              importedCustomModuleNode := VNull |}, ["earlier"]))).
  { cbn [run_listeners]. rewrite noting_rule_import_call. reflexivity. }
  split; [exact Hrun|].
  exact (closed_gate_silences_rule _ _ _ _ _ _ _ _ Hrun eq_refl).
Defined.


(** ** The default pattern, spelled out *)






(** ** The rule render-result-naming-convention *)

Ltac run_ok :=
  repeat (progress (change (bind (Ok ?v) ?f) with (f v); cbv beta)).

Section RenderResultNamingConventionProperties.
Import RenderResultNamingConvention.
Variable hasTestingLibraryImportModule : value -> result value.
Variable isRenderVariableDeclarator : value -> list value -> result value.
Variable same_reference : value -> value -> bool.
Variable renderFunctions : list string.

Lemma ASTUtils_isIdentifier_spec (node : value) :
  exists b, ASTUtils_isIdentifier node = Ok (VBool b) /\
            (b = true <-> node_type node = Some "Identifier").
Proof.
  unfold ASTUtils_isIdentifier, optional_type_is, get_opt.
  destruct node as [| | | | | |fs]; simpl;
    try (exists false; split; [reflexivity|]; split; discriminate).
  destruct (lookup_field "type" fs) as [| | | |s| |]; simpl;
    try (exists false; split; [reflexivity|]; split; discriminate).
  exists (s =? "Identifier"). split; [reflexivity|].
  rewrite String.eqb_eq. split; congruence.
Qed.

Lemma renderResultName_of_identifier (node id : value) (name : value) :
  get node "id" = Ok id -> node_type id = Some "Identifier" ->
  get id "name" = Ok name ->
  renderResultName_of node = Ok name.
Proof.
  intros Hid Hty Hname. unfold renderResultName_of. rewrite Hid.
  change (bind (Ok ?v) ?f) with (f v). cbv beta.
  destruct (ASTUtils_isIdentifier_spec id) as (b & -> & Hb).
  rewrite (proj2 Hb Hty). exact Hname.
Qed.

Lemma renderResultName_of_other (node id : value) :
  get node "id" = Ok id -> node_type id <> Some "Identifier" ->
  renderResultName_of node = Ok (VBool false).
Proof.
  intros Hid Hty. unfold renderResultName_of. rewrite Hid.
  change (bind (Ok ?v) ?f) with (f v). cbv beta.
  destruct (ASTUtils_isIdentifier_spec id) as (b & -> & Hb).
  destruct b; [exfalso; apply Hty, Hb; reflexivity | reflexivity].
Qed.

(** Everything the listener can do. *)
Lemma VariableDeclarator_inv (node : value) (vars vars' : RuleVars) :
  VariableDeclarator isRenderVariableDeclarator same_reference
    renderFunctions node vars = Ok vars' ->
  vars' = vars \/
  exists id valid functionName objectName varName,
    get node "id" = Ok id /\
    node_type id <> Some "ObjectPattern" /\
    isRenderVariableDeclarator node
      (map VStr renderFunctions ++ [renderAlias vars]) = Ok valid /\
    (truthy valid = true \/ truthy (wildcardImportName vars) = true) /\
    renderFunctionName_of node = Ok functionName /\
    renderFunctionObjectName_of node = Ok objectName /\
    (truthy (renderAlias vars) = true \/
     js_includes renderFunctions functionName = true \/
     (truthy objectName = true /\
      strict_eq same_reference objectName (wildcardImportName vars) = true)) /\
    renderResultName_of node = Ok varName /\
    js_includes ALLOWED_VAR_NAMES varName = false /\
    vars' = with_report node varName vars.
Proof.
  unfold VariableDeclarator.
  fold (renderFunctionName_of node). fold (renderFunctionObjectName_of node).
  fold (renderResultName_of node).
  destruct (get node "id") as [id|] eqn:Hid; [|discriminate].
  change (bind (Ok ?v) ?f) with (f v). cbv beta.
  destruct (guarded_type_is_spec id "ObjectPattern") as (p & Hp & Hpiff).
  unfold isObjectPattern, AST_NODE_TYPES.ObjectPattern. rewrite Hp.
  change (bind (Ok ?v) ?f) with (f v). cbv beta.
  destruct (truthy p) eqn:Ep; [intros [= <-]; auto|].
  destruct (isRenderVariableDeclarator node _) as [valid|] eqn:Hvalid;
    [|discriminate].
  change (bind (Ok ?v) ?f) with (f v). cbv beta.
  destruct (negb (truthy valid) && negb (truthy (wildcardImportName vars)))
    eqn:Eg1; [intros [= <-]; auto|].
  destruct (renderFunctionName_of node) as [functionName|] eqn:Hfn;
    [|discriminate].
  change (bind (Ok ?v) ?f) with (f v). cbv beta.
  destruct (renderFunctionObjectName_of node) as [objectName|] eqn:Hon;
    [|discriminate].
  change (bind (Ok ?v) ?f) with (f v). cbv beta.
  destruct (negb (truthy (renderAlias vars))
            && negb (js_includes renderFunctions functionName)
            && negb (truthy objectName
                     && strict_eq same_reference objectName
                          (wildcardImportName vars))) eqn:Eg3;
    [intros [= <-]; auto|].
  destruct (renderResultName_of node) as [varName|] eqn:Hrn; [|discriminate].
  change (bind (Ok ?v) ?f) with (f v). cbv beta.
  destruct (js_includes ALLOWED_VAR_NAMES varName) eqn:Eallowed;
    [intros [= <-]; auto|].
  intros [= <-]. right.
  exists id, valid, functionName, objectName, varName.
  repeat split; try assumption; try reflexivity.
  - intros Hty. apply Hpiff in Hty. congruence.
  - apply andb_false_iff in Eg1 as [E|E]; apply negb_false_iff in E; auto.
  - apply andb_false_iff in Eg3 as [E|E];
      [apply andb_false_iff in E as [E|E]|];
      apply negb_false_iff in E; auto.
    apply andb_true_iff in E. auto.
Qed.

(** X19.  A declarator that destructures ([const { getByText } =
    render(...)]) is never reported, whatever was imported and
    whatever the helpers answer. *)
Theorem destructuring_never_reported (node id : value) (vars : RuleVars) :
  get node "id" = Ok id -> node_type id = Some "ObjectPattern" ->
  VariableDeclarator isRenderVariableDeclarator same_reference
    renderFunctions node vars = Ok vars.
Proof.
  intros Hid Hty. unfold VariableDeclarator. rewrite Hid.
  change (bind (Ok ?v) ?f) with (f v). cbv beta.
  destruct (guarded_type_is_spec id "ObjectPattern") as (p & Hp & Hpiff).
  unfold isObjectPattern, AST_NODE_TYPES.ObjectPattern. rewrite Hp.
  change (bind (Ok ?v) ?f) with (f v). cbv beta.
  rewrite (proj2 Hpiff Hty). reflexivity.
Qed.

(** X20.  A declarator binding the name [view] or [utils] is never
    reported. *)
Theorem allowed_names_never_reported (node id : value) (name : string)
    (vars vars' : RuleVars) :
  get node "id" = Ok id -> node_type id = Some "Identifier" ->
  get id "name" = Ok (VStr name) ->
  name = "view" \/ name = "utils" ->
  VariableDeclarator isRenderVariableDeclarator same_reference
    renderFunctions node vars = Ok vars' ->
  vars' = vars.
Proof.
  intros Hid Hty Hname Hallowed Hrun.
  destruct (VariableDeclarator_inv _ _ _ Hrun)
    as [Heq|(id' & valid & fn & on & varName & _ & _ & _ & _ & _ & _ & _
             & Hrn & Hnot & _)]; [exact Heq|].
  rewrite (renderResultName_of_identifier _ _ _ Hid Hty Hname) in Hrn.
  injection Hrn as <-. destruct Hallowed as [-> | ->]; discriminate Hnot.
Qed.

Lemma strict_eq_truthy_falsy (a b : value) :
  truthy a = true -> truthy b = false ->
  strict_eq same_reference a b = false.
Proof.
  destruct a, b; simpl; try reflexivity; try discriminate.
  - intros -> ->. reflexivity.
  - intros Ha Hb. destruct (n =? n0)%Z eqn:E; [|reflexivity].
    apply Z.eqb_eq in E. subst. rewrite Hb in Ha. discriminate.
  - intros Ha Hb. destruct (s =? s0) eqn:E; [|reflexivity].
    apply String.eqb_eq in E. subst. rewrite Hb in Ha. discriminate.
Qed.

(** X21.  With no custom render functions configured, no named
    [render] import and no wildcard import seen, no declarator is
    reported. *)
Theorem nothing_imported_nothing_reported (node : value)
    (vars vars' : RuleVars) :
  renderFunctions = [] ->
  truthy (renderAlias vars) = false ->
  truthy (wildcardImportName vars) = false ->
  VariableDeclarator isRenderVariableDeclarator same_reference
    renderFunctions node vars = Ok vars' ->
  vars' = vars.
Proof.
  intros Hnone Halias Hwild Hrun.
  destruct (VariableDeclarator_inv _ _ _ Hrun)
    as [Heq|(id & valid & fn & on & varName & _ & _ & _ & _ & _ & _
             & [H|[H|[Hon H]]] & _)]; [exact Heq| | |].
  - congruence.
  - rewrite Hnone in H. destruct fn; discriminate H.
  - rewrite (strict_eq_truthy_falsy _ _ Hon Hwild) in H. discriminate.
Qed.

(** X22.  The [VariableDeclarator] listener never changes the two
    import variables, and it either reports nothing or appends exactly
    one report: about the declarator it was given, with message
    [renderResultNamingConvention], and with the bound name as
    [varName] when the binding target is an identifier, [false]
    otherwise; the name is never [view] or [utils]. *)
Theorem reports_are_about_the_declarator (node : value)
    (vars vars' : RuleVars) :
  VariableDeclarator isRenderVariableDeclarator same_reference
    renderFunctions node vars = Ok vars' ->
  renderAlias vars' = renderAlias vars /\
  wildcardImportName vars' = wildcardImportName vars /\
  (reports vars' = reports vars \/
   exists id varName,
     reports vars'
     = reports vars ++
       [{| report_node := node;
           report_messageId := "renderResultNamingConvention";
           report_varName := varName |}] /\
     get node "id" = Ok id /\
     (node_type id = Some "Identifier" -> get id "name" = Ok varName) /\
     (node_type id <> Some "Identifier" -> varName = VBool false) /\
     varName <> VStr "view" /\ varName <> VStr "utils").
Proof.
  intros Hrun.
  destruct (VariableDeclarator_inv _ _ _ Hrun)
    as [->|(id & valid & fn & on & varName & Hid & _ & _ & _ & _ & _ & _
            & Hrn & Hnot & ->)]; [auto|].
  split; [reflexivity|]. split; [reflexivity|]. right.
  exists id, varName. split; [reflexivity|]. split; [exact Hid|].
  repeat split.
  - intros Hty. destruct (get id "name") as [name|] eqn:Hname.
    + rewrite (renderResultName_of_identifier _ _ _ Hid Hty Hname) in Hrn.
      congruence.
    + destruct (node_type_object _ _ Hty) as [fs ->]. discriminate Hname.
  - intros Hty. rewrite (renderResultName_of_other _ _ Hid Hty) in Hrn.
    congruence.
  - intros ->. discriminate Hnot.
  - intros ->. discriminate Hnot.
Qed.

Lemma renderFunctionName_of_total (fs : list (string * value)) :
  exists v, renderFunctionName_of (VObj fs) = Ok v.
Proof.
  unfold renderFunctionName_of. rewrite !get_object. run_ok.
  destruct (guarded_type_is_spec (lookup_field "init" fs) "CallExpression")
    as (b & Hb & Hiff).
  unfold isCallExpression, AST_NODE_TYPES.CallExpression. rewrite Hb.
  run_ok. unfold js_and at 1.
  destruct (truthy b) eqn:E; [|eauto].
  destruct (node_type_object _ _ (proj1 Hiff eq_refl)) as [ifs ->].
  rewrite !get_object. run_ok.
  destruct (ASTUtils_isIdentifier_spec (lookup_field "callee" ifs))
    as (b' & -> & Hb').
  run_ok. unfold js_and.
  destruct b'; simpl; [|eauto].
  destruct (node_type_object _ _ (proj1 Hb' eq_refl)) as [cfs ->].
  rewrite get_object. eauto.
Qed.

Lemma renderFunctionObjectName_of_total (fs : list (string * value)) :
  exists v, renderFunctionObjectName_of (VObj fs) = Ok v.
Proof.
  unfold renderFunctionObjectName_of. rewrite !get_object. run_ok.
  destruct (guarded_type_is_spec (lookup_field "init" fs) "CallExpression")
    as (b & Hb & Hiff).
  unfold isCallExpression, AST_NODE_TYPES.CallExpression. rewrite Hb.
  run_ok. unfold js_and at 1.
  destruct (truthy b) eqn:E; [|eauto].
  destruct (node_type_object _ _ (proj1 Hiff eq_refl)) as [ifs ->].
  rewrite !get_object. run_ok.
  destruct (guarded_type_is_spec (lookup_field "callee" ifs) "MemberExpression")
    as (b1 & Hb1 & Hiff1).
  unfold isMemberExpression, AST_NODE_TYPES.MemberExpression. rewrite Hb1.
  run_ok. unfold js_and at 1.
  destruct (truthy b1) eqn:E1; [|eauto].
  destruct (node_type_object _ _ (proj1 Hiff1 eq_refl)) as [cfs ->].
  rewrite !get_object. run_ok.
  destruct (ASTUtils_isIdentifier_spec (lookup_field "property" cfs))
    as (b2 & -> & Hb2).
  run_ok. unfold js_and at 1.
  destruct b2; cbn [truthy]; [|eauto].
  destruct (node_type_object _ _ (proj1 Hb2 eq_refl)) as [pfs ->].
  destruct (ASTUtils_isIdentifier_spec (lookup_field "object" cfs))
    as (b3 & -> & Hb3).
  run_ok. unfold js_and at 1.
  destruct b3; cbn [truthy]; [|eauto].
  destruct (node_type_object _ _ (proj1 Hb3 eq_refl)) as [ofs ->].
  rewrite !get_object. run_ok. unfold js_and.
  rewrite ?get_object.
  destruct (truthy (strict_eq_str _ _)); eauto.
Qed.

(** X23.  After both a named [render] import and a wildcard import
    have been seen, every declarator binding an identifier other than
    [view] and [utils] is reported, whatever its initialiser is and
    whatever [isRenderVariableDeclarator] answers. *)
Theorem both_imports_report_any_declarator (fs : list (string * value))
    (id : value) (name : string) (valid : value) (vars : RuleVars) :
  truthy (renderAlias vars) = true ->
  truthy (wildcardImportName vars) = true ->
  isRenderVariableDeclarator (VObj fs)
    (map VStr renderFunctions ++ [renderAlias vars]) = Ok valid ->
  lookup_field "id" fs = id -> node_type id = Some "Identifier" ->
  get id "name" = Ok (VStr name) ->
  name <> "view" -> name <> "utils" ->
  VariableDeclarator isRenderVariableDeclarator same_reference
    renderFunctions (VObj fs) vars
  = Ok (with_report (VObj fs) (VStr name) vars).
Proof.
  intros Halias Hwild Hvalid Hid Hty Hname Hview Hutils.
  unfold VariableDeclarator.
  fold (renderFunctionName_of (VObj fs)).
  fold (renderFunctionObjectName_of (VObj fs)).
  fold (renderResultName_of (VObj fs)).
  rewrite get_object, Hid. run_ok.
  destruct (guarded_type_is_spec id "ObjectPattern") as (p & Hp & Hpiff).
  unfold isObjectPattern, AST_NODE_TYPES.ObjectPattern. rewrite Hp.
  run_ok.
  destruct (truthy p) eqn:Ep.
  { pose proof (proj1 Hpiff eq_refl). congruence. }
  rewrite Hvalid. run_ok.
  rewrite Hwild, Halias. rewrite andb_false_r.
  destruct (renderFunctionName_of_total fs) as (fn & ->).
  destruct (renderFunctionObjectName_of_total fs) as (on & ->).
  run_ok. cbn [negb andb].
  rewrite (renderResultName_of_identifier (VObj fs) id (VStr name));
    [|rewrite get_object; congruence|exact Hty|exact Hname].
  run_ok.
  replace (js_includes ALLOWED_VAR_NAMES (VStr name)) with false;
    [reflexivity|].
  symmetry. unfold js_includes, ALLOWED_VAR_NAMES. simpl.
  apply String.eqb_neq in Hview, Hutils. rewrite Hview, Hutils. reflexivity.
Qed.

(** X24.  On a Testing Library import, the rule's [ImportDeclaration]
    listener sets [renderAlias] to the local name of the first named
    specifier importing [render], and leaves the variables alone when
    there is none. *)
Theorem import_sets_alias (node has : value) (specifiers : list specifier)
    (vars : RuleVars) :
  hasTestingLibraryImportModule node = Ok has -> truthy has = true ->
  get node "specifiers" = Ok (VArr (map specifier_node specifiers)) ->
  ImportDeclaration hasTestingLibraryImportModule node vars
  = Ok match find (is_named "render") specifiers with
       | Some (NamedSpecifier _ local) =>
           {| renderAlias := VStr local;
              wildcardImportName := wildcardImportName vars;
              reports := reports vars |}
       | _ => vars
       end.
Proof.
  intros Hhas Ht Hspecs. unfold ImportDeclaration.
  rewrite Hhas. run_ok.
  rewrite Ht, Hspecs. cbn [negb bind as_array].
  fold (named_specifier_test "render").
  rewrite (js_find_specifiers (named_specifier_test "render")
             (is_named "render") specifiers
             (named_specifier_test_node "render")).
  run_ok.
  destruct (find (is_named "render") specifiers) as [s|] eqn:E;
    [|reflexivity].
  rewrite specifier_node_truthy.
  apply find_some in E as [_ Hs].
  destruct s; simpl in Hs; try discriminate. reflexivity.
Qed.

(** X25.  The two import listeners never report: [ImportDeclaration]
    can only change [renderAlias], and the wildcard listener can only
    change [wildcardImportName]. *)
Theorem import_listeners_only_set_names (node : value)
    (vars vars' : RuleVars) :
  (ImportDeclaration hasTestingLibraryImportModule node vars = Ok vars' ->
   reports vars' = reports vars /\
   wildcardImportName vars' = wildcardImportName vars) /\
  (ImportNamespaceSpecifier hasTestingLibraryImportModule node vars = Ok vars' ->
   reports vars' = reports vars /\
   renderAlias vars' = renderAlias vars).
Proof.
  split.
  - unfold ImportDeclaration.
    destruct (hasTestingLibraryImportModule node) as [has|]; [|discriminate].
    run_ok. destruct (negb (truthy has)); [intros [= <-]; auto|].
    destruct (bind (get node "specifiers") as_array) as [specifiers|];
      [|discriminate].
    run_ok.
    destruct (js_find _ specifiers) as [renderImport|]; [|discriminate].
    run_ok. destruct (negb (truthy renderImport)); [intros [= <-]; auto|].
    destruct (get renderImport "local") as [local|]; [|discriminate].
    run_ok. destruct (get local "name") as [name|]; [|discriminate].
    run_ok. intros [= <-]. auto.
  - unfold ImportNamespaceSpecifier.
    destruct (get node "parent") as [parent|]; [|discriminate].
    run_ok.
    destruct (hasTestingLibraryImportModule parent) as [has|]; [|discriminate].
    run_ok. destruct (negb (truthy has)); [intros [= <-]; auto|].
    destruct (get node "local") as [local|]; [|discriminate].
    run_ok. destruct (get local "name") as [name|]; [|discriminate].
    run_ok. intros [= <-]. auto.
Qed.
End RenderResultNamingConventionProperties.

Section RenderResultNamingConventionExamples.
Import RenderResultNamingConvention.

Lemma destructuring_never_reported_witness :
  get (declarator (ObjectPattern_node [("getByText", "getByText")])
                  (parentless_call "render")) "id"
  = Ok (ObjectPattern_node [("getByText", "getByText")]) /\
  node_type (ObjectPattern_node [("getByText", "getByText")])
  = Some "ObjectPattern" /\
  VariableDeclarator initialised_by_call never_same []
    (declarator (ObjectPattern_node [("getByText", "getByText")])
                (parentless_call "render")) render_imported
  = Ok render_imported.
Proof.
  split; [reflexivity|]. split; [reflexivity|].
  apply (destructuring_never_reported initialised_by_call never_same []
           _ (ObjectPattern_node [("getByText", "getByText")]));
    reflexivity.
Defined.

Lemma allowed_names_never_reported_witness :
  VariableDeclarator initialised_by_call never_same []
    (declarator (Identifier_node "view") (parentless_call "render"))
    render_imported
  = Ok render_imported /\
  render_imported = render_imported.
Proof.
  assert (H : VariableDeclarator initialised_by_call never_same []
                (declarator (Identifier_node "view") (parentless_call "render"))
                render_imported
              = Ok render_imported) by reflexivity.
  split; [exact H|].
  apply (allowed_names_never_reported initialised_by_call never_same []
           (declarator (Identifier_node "view") (parentless_call "render"))
           (Identifier_node "view") "view" render_imported render_imported);
    [reflexivity | reflexivity | reflexivity | left; reflexivity | exact H].
Defined.

Lemma nothing_imported_nothing_reported_witness :
  VariableDeclarator initialised_by_call never_same []
    (declarator (Identifier_node "wrapper") (parentless_call "render"))
    initialVars
  = Ok initialVars /\
  initialVars = initialVars.
Proof.
  assert (H : VariableDeclarator initialised_by_call never_same []
                (declarator (Identifier_node "wrapper")
                            (parentless_call "render"))
                initialVars
              = Ok initialVars) by reflexivity.
  split; [exact H|].
  apply (nothing_imported_nothing_reported initialised_by_call never_same []
           (declarator (Identifier_node "wrapper") (parentless_call "render"))
           initialVars initialVars);
    [reflexivity | reflexivity | reflexivity | exact H].
Defined.

Lemma reports_are_about_the_declarator_witness :
  VariableDeclarator initialised_by_call never_same []
    (declarator (Identifier_node "wrapper") (parentless_call "render"))
    render_imported
  = Ok (with_report
          (declarator (Identifier_node "wrapper") (parentless_call "render"))
          (VStr "wrapper") render_imported) /\
  exists id varName,
    reports (with_report
               (declarator (Identifier_node "wrapper")
                           (parentless_call "render"))
               (VStr "wrapper") render_imported)
    = reports render_imported ++
      [{| report_node :=
            declarator (Identifier_node "wrapper") (parentless_call "render");
          report_messageId := "renderResultNamingConvention";
          report_varName := varName |}] /\
    get (declarator (Identifier_node "wrapper") (parentless_call "render"))
        "id" = Ok id /\
    (node_type id = Some "Identifier" -> get id "name" = Ok varName).
Proof.
  assert (H : VariableDeclarator initialised_by_call never_same []
                (declarator (Identifier_node "wrapper")
                            (parentless_call "render"))
                render_imported
              = Ok (with_report
                      (declarator (Identifier_node "wrapper")
                                  (parentless_call "render"))
                      (VStr "wrapper") render_imported)) by reflexivity.
  split; [exact H|].
  destruct (reports_are_about_the_declarator initialised_by_call never_same []
              _ _ _ H)
    as (_ & _ & [Hsame|(id & varName & Hreports & Hid & Hname & _)]).
  - discriminate Hsame.
  - exists id, varName. auto.
Defined.

Lemma both_imports_report_any_declarator_witness :
  isCallExpression (Literal_node (VNum 5)) = Ok (VBool false) /\
  VariableDeclarator initialised_by_call never_same []
    (declarator (Identifier_node "count") (Literal_node (VNum 5)))
    both_imported
  = Ok (with_report
          (declarator (Identifier_node "count") (Literal_node (VNum 5)))
          (VStr "count") both_imported).
Proof.
  split; [reflexivity|].
  apply (both_imports_report_any_declarator initialised_by_call never_same []
           _ (Identifier_node "count") "count" (VBool false));
    try reflexivity; discriminate.
Defined.

Lemma import_sets_alias_witness :
  ImportDeclaration always_imported
    (ImportDeclaration_node
       [DefaultSpecifier "rtl"; NamedSpecifier "render" "customRender"]
       "@testing-library/react")
    initialVars
  = Ok {| renderAlias := VStr "customRender";
          wildcardImportName := VUndefined;
          reports := [] |}.
Proof.
  apply (import_sets_alias always_imported _ (VBool true)
           [DefaultSpecifier "rtl"; NamedSpecifier "render" "customRender"]);
    reflexivity.
Defined.
Lemma import_listeners_only_set_names_witness :
  reports {| renderAlias := VStr "customRender";
             wildcardImportName := VUndefined;
             reports := [] |} = reports initialVars /\
  wildcardImportName {| renderAlias := VStr "customRender";
                        wildcardImportName := VUndefined;
                        reports := [] |}
  = wildcardImportName initialVars.
Proof.
  apply (proj1 (import_listeners_only_set_names always_imported
                  (ImportDeclaration_node
                     [NamedSpecifier "render" "customRender"]
                     "@testing-library/react")
                  initialVars _)).
  reflexivity.
Defined.
End RenderResultNamingConventionExamples.
